(** * IoT sensor data analyzer: row filter, value parser, statistics, ranking

    A shallow embedding of [analyzer.py].  Python floats are IEEE binary64
    values, embedded as Rocq's primitive [float]; Python exceptions are
    embedded as an explicit error result. *)

From stdpp Require Import gmap strings list sorting.
From Stdlib Require Import Ascii String ZArith Floats Uint63 Lia.

Local Open Scope string_scope.
Local Open Scope list_scope.

Set Warnings "-inexact-float".

(** ** Exceptions *)

Inductive exn : Set :=
| ValueError
| KeyError
| TypeError
| AttributeError
| OverflowError.

Inductive result (A : Type) : Type :=
| Ret (a : A)
| Raise (e : exn).

Arguments Ret {A} a.
Arguments Raise {A} e.

Definition bind {A B : Type} (r : result A) (k : A -> result B) : result B :=
  match r with
  | Ret a => k a
  | Raise e => Raise e
  end.

Notation "x <~ r ; k" := (bind r (fun x => k))
  (at level 200, r at level 100, k at level 200, right associativity).

(** [try: r except es: h] runs [h] when [r] raised one of [es]. *)
Definition exn_eqb (a b : exn) : bool :=
  match a, b with
  | ValueError, ValueError | KeyError, KeyError | TypeError, TypeError
  | AttributeError, AttributeError | OverflowError, OverflowError => true
  | _, _ => false
  end.

Definition try_except {A : Type} (r : result A) (es : list exn) (h : result A)
  : result A :=
  match r with
  | Ret a => Ret a
  | Raise e => if existsb (exn_eqb e) es then h else Raise e
  end.

Fixpoint mapM {A B : Type} (f : A -> result B) (l : list A) : result (list B) :=
  match l with
  | [] => Ret []
  | a :: l' => b <~ f a; bs <~ mapM f l'; Ret (b :: bs)
  end.

(** ** Text *)

(** Python text is embedded as [string]; a character stands for the code
    point of the same number.  [str.isspace] holds of these code points. *)
Definition isspace (c : ascii) : bool :=
  let n := nat_of_ascii c in
  (Nat.leb 9 n && Nat.leb n 13) || (Nat.leb 28 n && Nat.leb n 32)
  || Nat.eqb n 133 || Nat.eqb n 160.

Fixpoint lstrip (s : string) : string :=
  match s with
  | EmptyString => EmptyString
  | String c s' => if isspace c then lstrip s' else s
  end.

Fixpoint rstrip (s : string) : string :=
  match s with
  | EmptyString => EmptyString
  | String c s' =>
      match rstrip s' with
      | EmptyString => if isspace c then EmptyString else String c EmptyString
      | r => String c r
      end
  end.

(** [s.strip()] *)
Definition strip (s : string) : string := rstrip (lstrip s).

(** A value read from a row, or an optional command-line string: [None] is
    Python's [None]. *)
Definition pystr : Set := option string.

(** Truth value of an optional string: [None] and [''] are false. *)
Definition truthy (o : pystr) : bool :=
  match o with
  | Some s => negb (String.eqb s "")
  | None => false
  end.

(** [v != o] between two optional strings. *)
Definition pystr_ne (v o : pystr) : bool :=
  match v, o with
  | Some a, Some b => negb (String.eqb a b)
  | None, None => false
  | _, _ => true
  end.

(** [v.strip()]: [None] has no such attribute. *)
Definition py_strip (v : pystr) : result string :=
  match v with
  | Some s => Ret (strip s)
  | None => Raise AttributeError
  end.

(** ** Rows *)

(** A row of [csv.DictReader]: column name to field text; a column missing
    from a short line holds [None]. *)
Abbreviation Row := (gmap string pystr).

(** [row[k]] *)
Definition getitem (row : Row) (k : string) : result pystr :=
  match row !! k with
  | Some v => Ret v
  | None => Raise KeyError
  end.

(** ** Timestamps *)

(** [datetime.timezone]: a fixed offset from UTC, in microseconds, and an
    optional name. *)
Record timezone : Set := mkTimezone {
  utcoffset : Z;
  tzname : option string
}.

Definition timezone_utc : timezone := {| utcoffset := 0; tzname := None |}.

Record datetime : Set := mkDatetime {
  year : Z;
  month : Z;
  day : Z;
  hour : Z;
  minute : Z;
  second : Z;
  microsecond : Z;
  tzinfo : option timezone
}.

(** [dt.replace(tzinfo=tz)] *)
Definition replace_tzinfo (dt : datetime) (tz : timezone) : datetime :=
  {| year := year dt; month := month dt; day := day dt; hour := hour dt;
     minute := minute dt; second := second dt;
     microsecond := microsecond dt; tzinfo := Some tz |}.

Module Datetime.

Definition is_leap (y : Z) : bool :=
  (y mod 4 =? 0)%Z && (negb (y mod 100 =? 0)%Z || (y mod 400 =? 0)%Z).

Definition days_before_year (y : Z) : Z :=
  let p := (y - 1)%Z in (p * 365 + p / 4 - p / 100 + p / 400)%Z.

Definition days_before_month (y m : Z) : Z :=
  (nth (Z.to_nat m) [0; 0; 31; 59; 90; 120; 151; 181; 212; 243; 273; 304; 334] 0
   + (if (2 <? m)%Z && is_leap y then 1 else 0))%Z.

(** [dt.toordinal()] *)
Definition toordinal (dt : datetime) : Z :=
  (days_before_year (year dt) + days_before_month (year dt) (month dt)
   + day dt)%Z.

(** The timedelta [a - b] of the wall-clock fields, in microseconds. *)
Definition base_diff (a b : datetime) : Z :=
  (((toordinal a - toordinal b) * 86400
    + ((second a + minute a * 60 + hour a * 3600)
       - (second b + minute b * 60 + hour b * 3600))) * 1000000
   + (microsecond a - microsecond b))%Z.

Definition fields (dt : datetime) : list Z :=
  [year dt; month dt; day dt; hour dt; minute dt; second dt; microsecond dt].

(** Comparison of two tuples of ints, first difference decides. *)
Fixpoint tuple_cmp (a b : list Z) : comparison :=
  match a, b with
  | x :: a', y :: b' =>
      match (x ?= y)%Z with
      | Eq => tuple_cmp a' b'
      | c => c
      end
  | [], [] => Eq
  | [], _ :: _ => Lt
  | _ :: _, [] => Gt
  end.

Definition offset (dt : datetime) : option Z := utcoffset <$> tzinfo dt.

(** [a._cmp(b)]: equal offsets (or two naive values) compare the
    wall-clock fields; a naive and an aware value do not compare; otherwise
    the sign of [a - b], which takes the offsets into account. *)
Definition cmp (a b : datetime) : result comparison :=
  match offset a, offset b with
  | None, None => Ret (tuple_cmp (fields a) (fields b))
  | Some oa, Some ob =>
      if (oa =? ob)%Z then Ret (tuple_cmp (fields a) (fields b))
      else Ret ((base_diff a b + ob - oa) ?= 0)%Z
  | _, _ => Raise TypeError
  end.

Definition of_cmp (p : comparison -> bool) (a b : datetime) : result bool :=
  c <~ cmp a b; Ret (p c).

(** [a < b], [a > b], [a <= b], [a >= b] *)
Definition lt := of_cmp (fun c => match c with Lt => true | _ => false end).
Definition gt := of_cmp (fun c => match c with Gt => true | _ => false end).
Definition le := of_cmp (fun c => match c with Gt => false | _ => true end).
Definition ge := of_cmp (fun c => match c with Lt => false | _ => true end).

End Datetime.

(** ** Command-line criteria *)

(** The namespace that [parse_arguments] returns.  A date option that was
    given and not empty holds the [datetime] that [parse_datetime] made of it;
    an empty one is false like [None] and is embedded as [None]. *)
Record Args : Set := mkArgs {
  site : pystr;
  device : pystr;
  metric : pystr;
  start_date : option datetime;
  end_date : option datetime
}.

(** Truth value of a date option: a [datetime] is always true. *)
Definition given (d : option datetime) : bool :=
  match d with
  | Some _ => true
  | None => false
  end.

Section Analyzer.

(** [datetime.strptime(text, fmt)]; [None] stands for its [ValueError]. *)
Variable strptime : string -> string -> option datetime.

(** [float(text)]; [None] stands for its [ValueError]. *)
Variable float_of_str : string -> option float.

Definition formats : list string :=
  ["%Y-%m-%d %H:%M:%S %z %Z"; "%Y-%m-%d %H:%M:%S"; "%Y-%m-%d"].

Definition call_strptime (date_str fmt : string) : result datetime :=
  match strptime date_str fmt with
  | Some dt => Ret dt
  | None => Raise ValueError
  end.

(** The body of the [try] of [parse_datetime] for one format. *)
Definition parse_with (date_str fmt : string) : result datetime :=
  dt <~ call_strptime date_str fmt;
  Ret (match tzinfo dt with
       | None => replace_tzinfo dt timezone_utc
       | Some _ => dt
       end).

Fixpoint parse_datetime_loop (date_str : string) (fmts : list string)
  : result datetime :=
  match fmts with
  | [] => Raise ValueError
  | fmt :: fmts' =>
      try_except (parse_with date_str fmt) [ValueError]
        (parse_datetime_loop date_str fmts')
  end.

Definition parse_datetime (date_str : string) : result datetime :=
  parse_datetime_loop date_str formats.

(** [args.f and row[k] != args.f] *)
Definition criterion_misses (row : Row) (k : string) (f : pystr)
  : result bool :=
  if truthy f then v <~ getitem row k; Ret (pystr_ne v f) else Ret false.

Definition should_include (row : Row) (args : Args) : result bool :=
  miss <~ criterion_misses row "site" (site args);
  if miss then Ret false else
  miss <~ criterion_misses row "device" (device args);
  if miss then Ret false else
  miss <~ criterion_misses row "metric" (metric args);
  if miss then Ret false else
  if given (start_date args) || given (end_date args) then
    try_except
      (t <~ getitem row "time";
       s <~ py_strip t;
       row_time <~ parse_datetime s;
       early <~ match start_date args with
                | Some sd => Datetime.lt row_time sd
                | None => Ret false
                end;
       if early then Ret false else
       late <~ match end_date args with
               | Some ed => Datetime.gt row_time ed
               | None => Ret false
               end;
       if late then Ret false else Ret true)
      [ValueError; KeyError]
      (Ret false)
  else Ret true.

Definition call_float (s : string) : result float :=
  match float_of_str s with
  | Some f => Ret f
  | None => Raise ValueError
  end.

Definition convert_to_float (value_str : pystr) : result (option float) :=
  match value_str with
  | None => Ret None
  | Some s =>
      if String.eqb (strip s) "" then Ret None
      else
        try_except (f <~ call_float (strip s); Ret (Some f))
          [ValueError; TypeError]
          (Ret None)
  end.

End Analyzer.

(** ** The command line *)

Module Namespace.

(** The namespace that [parser.parse_args()] returns: the path of the
    file, and for every option its text, or [None] when it was not given. *)
Record t : Set := make {
  input_file : string;
  site : pystr;
  device : pystr;
  metric : pystr;
  start_date : pystr;
  end_date : pystr
}.

End Namespace.

(** [parser.error(message)] writes the usage and the message to the standard
    error and exits with status 2. *)
Inductive parsed (A : Type) : Type :=
| Parsed (a : A)
| ParserError (message : string).

Arguments Parsed {A} a.
Arguments ParserError {A} message.

Section ParseArguments.

Variable strptime : string -> string -> option datetime.

(** One date option of [parse_arguments]: it stays as it is when it is
    false, and is replaced by what [parse_datetime] makes of it otherwise.
    The [ValueError] of [parse_datetime] carries the message
    [Unable to parse date string: ...], which goes into that of the error. *)
Definition parse_date_option (name : string) (o : pystr)
  : result (parsed (option datetime)) :=
  match o with
  | Some s =>
      if truthy o then
        match parse_datetime strptime s with
        | Ret dt => Ret (Parsed (Some dt))
        | Raise ValueError =>
            Ret (ParserError
                   ("Invalid " +:+ name +:+ " format: "
                    +:+ "Unable to parse date string: " +:+ s))
        | Raise e => Raise e
        end
      else Ret (Parsed None)
  | None => Ret (Parsed None)
  end.

(** [parse_arguments], from the namespace on. *)
Definition parse_arguments (ns : Namespace.t) : result (parsed Args) :=
  sd <~ parse_date_option "start-date" (Namespace.start_date ns);
  match sd with
  | ParserError message => Ret (ParserError message)
  | Parsed sd =>
      ed <~ parse_date_option "end-date" (Namespace.end_date ns);
      match ed with
      | ParserError message => Ret (ParserError message)
      | Parsed ed =>
          Ret (Parsed {| site := Namespace.site ns;
                         device := Namespace.device ns;
                         metric := Namespace.metric ns;
                         start_date := sd;
                         end_date := ed |})
      end
  end.

End ParseArguments.

(** ** Floats as Python uses them *)

Module PyFloat.

(** [float(n)] for a list length [n], which is below [2^63]. *)
Definition of_nat (n : nat) : float := of_uint63 (Uint63.of_Z (Z.of_nat n)).

(** [sum(xs)]: the items are added from left to right, starting from the
    int [0], which the first addition converts to [0.0].  (CPython from 3.12
    on carries a correction term along; the sums evaluated in this file are
    the same with it.) *)
Definition sum (xs : list float) : float := fold_left PrimFloat.add xs 0%float.

(** [min(xs)] keeps the first item and replaces it by each later item that
    is [<] it; [max(xs)] does the same with [>]. *)
Definition min_from (m : float) (xs : list float) : float :=
  fold_left (fun m x => if (x <? m)%float then x else m) xs m.

Definition max_from (m : float) (xs : list float) : float :=
  fold_left (fun m x => if (m <? x)%float then x else m) xs m.

(** [x ** 2]: [float_pow] with exponent [2.0].  NaN, infinities, zeros and
    [+-1.0] are answered before the platform [pow] is called on [|x|]; a
    result of [pow] that is infinite raises [OverflowError].  The platform
    [pow] is taken to return the correctly rounded square. *)
Definition pow2 (x : float) : result float :=
  if is_nan x then Ret x
  else if is_infinity x then Ret (abs x)
  else if (x =? 0)%float then Ret 0%float
  else if (abs x =? 1)%float then Ret 1%float
  else
    let ix := (abs x * abs x)%float in
    if is_infinity ix then Raise OverflowError else Ret ix.

(** [math.sqrt(x)]: a negative argument is a domain error. *)
Definition math_sqrt (x : float) : result float :=
  if (x <? 0)%float then Raise ValueError else Ret (PrimFloat.sqrt x).

End PyFloat.

(** ** Statistics *)

(** The ['average'] entry holds the int [0] for an empty input and a float
    otherwise. *)
Inductive num : Set :=
| PyInt (z : Z)
| PyFloat (f : float).

Record Statistics : Set := mkStatistics {
  average : num;
  min_value : float;
  max_value : float;
  count : Z;
  std_dev : float
}.

(** [[v for v in values if v is not None]] *)
Definition valid_values (values : list (option float)) : list float :=
  omap id values.

Definition compute_statistics (values : list (option float))
  : result Statistics :=
  match valid_values values with
  | [] =>
      Ret {| average := PyInt 0; min_value := 0%float; max_value := 0%float;
             count := 0; std_dev := 0%float |}
  | v0 :: rest =>
      let vs := v0 :: rest in
      let n := List.length vs in
      let avg := (PyFloat.sum vs / PyFloat.of_nat n)%float in
      let min_v := PyFloat.min_from v0 rest in
      let max_v := PyFloat.max_from v0 rest in
      sd <~ (if Nat.eqb n 1 then Ret 0%float
             else
               sq <~ mapM (fun x => PyFloat.pow2 (x - avg)%float) vs;
               PyFloat.math_sqrt (PyFloat.sum sq / PyFloat.of_nat n)%float);
      Ret {| average := PyFloat avg; min_value := min_v; max_value := max_v;
             count := Z.of_nat n; std_dev := sd |}
  end.

(** ** Comparison of Python numbers *)

(** The exact value of a number other than NaN: an infinity, or a multiple
    of [2^-1074], the spacing of the smallest binary64 values. *)
Inductive xnum : Set :=
| NegInf
| Fin (z : Z)
| PosInf.

Definition xnum_cmp (a b : xnum) : comparison :=
  match a, b with
  | NegInf, NegInf | PosInf, PosInf => Eq
  | NegInf, _ | _, PosInf => Lt
  | _, NegInf | PosInf, _ => Gt
  | Fin x, Fin y => (x ?= y)%Z
  end.

Definition sf_value (x : spec_float) : option xnum :=
  match x with
  | S754_nan => None
  | S754_infinity s => Some (if s then NegInf else PosInf)
  | S754_zero _ => Some (Fin 0)
  | S754_finite s m e => Some (Fin (cond_Zopp s (Z.pos m * 2 ^ (e + 1074))))
  end.

Definition num_value (x : num) : option xnum :=
  match x with
  | PyInt z => Some (Fin (z * 2 ^ 1074))
  | PyFloat f => sf_value (Prim2SF f)
  end.

(** Python compares an int and a float by their exact values; a NaN is
    unordered with everything. *)
Definition num_cmp (a b : num) : option comparison :=
  match num_value a, num_value b with
  | Some x, Some y => Some (xnum_cmp x y)
  | _, _ => None
  end.

(** [a < b] and [a >= b] *)
Definition num_lt (a b : num) : bool :=
  match num_cmp a b with
  | Some Lt => true
  | _ => false
  end.

Definition num_ge (a b : num) : bool :=
  match num_cmp a b with
  | Some (Gt | Eq) => true
  | _ => false
  end.

Definition num_is_nan (a : num) : bool :=
  match num_value a with
  | None => true
  | Some _ => false
  end.

(** ** Sorting *)

Section Sorting.

Context {A : Type}.
Variable key : A -> num.

(** [x] goes in front of the first item whose key is not below its own. *)
Fixpoint insert_by (x : A) (l : list A) : list A :=
  match l with
  | [] => [x]
  | y :: l' =>
      if num_lt (key y) (key x) then y :: insert_by x l' else x :: l
  end.

(** A stable ascending sort that compares keys with [<] only.  The sort of
    Python is such a sort; on keys that [<] orders the result does not
    depend on which one it is. *)
Definition stable_sort (l : list A) : list A := foldr insert_by [] l.

(** [sorted(l, key=key, reverse=True)]: the list is reversed, sorted in
    ascending order and reversed again. *)
Definition sorted_reverse (l : list A) : list A :=
  rev (stable_sort (rev l)).

End Sorting.

(** ** The run *)

(** [(device, site, metric)] *)
Definition GroupKey : Set := pystr * pystr * pystr.

(** [aggregations[key].append(value)] on a [defaultdict(list)]; a new key
    goes last in iteration order. *)
Fixpoint append_value (key : GroupKey) (value : option float)
    (aggs : list (GroupKey * list (option float)))
  : list (GroupKey * list (option float)) :=
  match aggs with
  | [] => [(key, [value])]
  | (k, vs) :: aggs' =>
      if decide (k = key) then (k, (vs ++ [value])%list) :: aggs'
      else (k, vs) :: append_value key value aggs'
  end.

Section Main.

Variable strptime : string -> string -> option datetime.
Variable float_of_str : string -> option float.
Variable args : Args.

(** The body of the loop over the rows. *)
Definition process_row (aggs : list (GroupKey * list (option float)))
    (row : Row) : result (list (GroupKey * list (option float))) :=
  inc <~ should_include strptime row args;
  if inc then
    d <~ getitem row "device";
    s <~ getitem row "site";
    m <~ getitem row "metric";
    raw <~ getitem row "value";
    value <~ convert_to_float float_of_str raw;
    match value with
    | Some _ => Ret (append_value (d, s, m) value aggs)
    | None => Ret aggs
    end
  else Ret aggs.

Fixpoint aggregate_from (aggs : list (GroupKey * list (option float)))
    (rows : list Row) : result (list (GroupKey * list (option float))) :=
  match rows with
  | [] => Ret aggs
  | row :: rows' => aggs' <~ process_row aggs row; aggregate_from aggs' rows'
  end.

(** The aggregations after the loop; an exception in the loop ends the run
    with an error message and no report. *)
Definition aggregate (rows : list Row)
  : result (list (GroupKey * list (option float))) :=
  aggregate_from [] rows.

End Main.

(** [stats], in the iteration order of [aggregations]. *)
Definition compute_stats (aggs : list (GroupKey * list (option float)))
  : result (list (GroupKey * Statistics)) :=
  mapM (fun kv : GroupKey * list (option float) =>
          st <~ compute_statistics kv.2; Ret (kv.1, st)) aggs.

Definition top_by_avg (stats : list (GroupKey * Statistics))
  : list (GroupKey * Statistics) :=
  take 10 (sorted_reverse (fun x => average x.2) stats).

Definition top_by_stddev (stats : list (GroupKey * Statistics))
  : list (GroupKey * Statistics) :=
  take 10 (sorted_reverse (fun x => PyFloat (std_dev x.2)) stats).

(** ** The report *)

(** [c * n] for a text [c] of one character. *)
Fixpoint repeat_char (n : nat) (c : ascii) : string :=
  match n with
  | O => EmptyString
  | S n' => String c (repeat_char n' c)
  end.

(** [format(s, '<w')] and [format(s, '>w')]: spaces after or before [s] up
    to the width [w]; a text that is longer stays as it is. *)
Definition ljust (w : nat) (s : string) : string :=
  s +:+ repeat_char (w - String.length s) " ".

Definition rjust (w : nat) (s : string) : string :=
  repeat_char (w - String.length s) " " +:+ s.

(** The decimal digits of [n] in front of [acc]; [fuel] is at least their
    number. *)
Fixpoint digits (fuel : nat) (n : N) (acc : string) : string :=
  match fuel with
  | O => acc
  | S fuel' =>
      let acc' := String (ascii_of_N (48 + n mod 10)) acc in
      if (n <? 10)%N then acc' else digits fuel' (n / 10) acc'
  end.

(** [str(n)] for an int [n], which [format(n, '>w')] pads. *)
Definition decimal (z : Z) : string :=
  (if (z <? 0)%Z then "-" else "")
  +:+ digits (S (N.to_nat (N.log2 (Z.abs_N z)))) (Z.abs_N z) "".

(** [float(n)] for an int [n]: the nearest float, or an [OverflowError]. *)
Definition float_of_int (z : Z) : result float :=
  let f := SF2Prim (binary_normalize prec emax z 0 false) in
  if is_infinity f then Raise OverflowError else Ret f.

(** The newline. *)
Definition nl : string := String "010" EmptyString.

(** [a < b] for two column values: texts are compared by code points, and
    [None] is not ordered with anything. *)
Definition text_lt (a b : pystr) : result bool :=
  match a, b with
  | Some x, Some y => Ret (String.ltb x y)
  | _, _ => Raise TypeError
  end.

(** [a < b] for two keys: the first components that differ decide.  The
    items of a dict have different keys, so that the comparison of two items
    is that of their keys and never reaches the statistics. *)
Definition key_lt (a b : GroupKey) : result bool :=
  let '(d1, s1, m1) := a in
  let '(d2, s2, m2) := b in
  if decide (d1 = d2) then
    if decide (s1 = s2) then
      if decide (m1 = m2) then Ret false else text_lt m1 m2
    else text_lt s1 s2
  else text_lt d1 d2.

(** The printing functions return the texts that they print, one for each
    call of [print]; what was printed before an exception is left out.  The
    entries [device], [site] and [metric] of the statistics of a group are
    the components of its key. *)
Section Report.

(** [format(x, '.2f')] *)
Variable fixed2 : float -> string.

(** [format(v, '<w')] for a column value: [None] has no such format. *)
Definition format_text (w : nat) (v : pystr) : result string :=
  match v with
  | Some s => Ret (ljust w s)
  | None => Raise TypeError
  end.

(** [format(x, '>10.2f')]; an int is converted to a float first. *)
Definition format_fixed (x : num) : result string :=
  match x with
  | PyFloat f => Ret (rjust 10 (fixed2 f))
  | PyInt z => f <~ float_of_int z; Ret (rjust 10 (fixed2 f))
  end.

(** [sorted(stats.items())], as an insertion sort.  The sort of Python
    compares other pairs of items; on keys that hold text the result is the
    same, and with a [None] in a key either sort, or the row of that key,
    raises the same [TypeError]. *)
Fixpoint insert_item (x : GroupKey * Statistics)
    (l : list (GroupKey * Statistics))
  : result (list (GroupKey * Statistics)) :=
  match l with
  | [] => Ret [x]
  | y :: l' =>
      below <~ key_lt y.1 x.1;
      if below then r <~ insert_item x l'; Ret (y :: r) else Ret (x :: l)
  end.

Fixpoint sorted_items (l : list (GroupKey * Statistics))
  : result (list (GroupKey * Statistics)) :=
  match l with
  | [] => Ret []
  | x :: l' => r <~ sorted_items l'; insert_item x r
  end.

(** The device, site and metric columns of a row. *)
Definition key_columns (key : GroupKey) : result string :=
  d <~ format_text 20 key.1.1;
  s <~ format_text 10 key.1.2;
  m <~ format_text 15 key.2;
  Ret (d +:+ " " +:+ s +:+ " " +:+ m).

(** A row of [print_aggregation_results]. *)
Definition aggregation_row (item : GroupKey * Statistics) : result string :=
  k <~ key_columns item.1;
  a <~ format_fixed (average item.2);
  Ret (k +:+ " " +:+ a
       +:+ " " +:+ rjust 10 (fixed2 (min_value item.2))
       +:+ " " +:+ rjust 10 (fixed2 (max_value item.2))
       +:+ " " +:+ rjust 8 (decimal (count item.2))
       +:+ " " +:+ rjust 10 (fixed2 (std_dev item.2))).

Definition print_aggregation_results (stats : list (GroupKey * Statistics))
  : result (list string) :=
  items <~ sorted_items stats;
  rows <~ mapM aggregation_row items;
  Ret ((ljust 20 "Device" +:+ " " +:+ ljust 10 "Site"
        +:+ " " +:+ ljust 15 "Metric" +:+ " " +:+ rjust 10 "Avg"
        +:+ " " +:+ rjust 10 "Min" +:+ " " +:+ rjust 10 "Max"
        +:+ " " +:+ rjust 8 "Count" +:+ " " +:+ rjust 10 "StdDev")
       :: repeat_char 100 "-" :: rows).

(** The rows of a top list, with the ranks counted from [rank]. *)
Fixpoint ranked_rows (value : Statistics -> result string) (rank : Z)
    (top_10 : list (GroupKey * Statistics)) : result (list string) :=
  match top_10 with
  | [] => Ret []
  | item :: rest =>
      k <~ key_columns item.1;
      v <~ value item.2;
      rows <~ ranked_rows value (rank + 1) rest;
      Ret ((ljust 6 (decimal rank) +:+ " " +:+ k +:+ " " +:+ v) :: rows)
  end.

Definition top_10_header (column : string) : string :=
  ljust 6 "Rank" +:+ " " +:+ ljust 20 "Device" +:+ " " +:+ ljust 10 "Site"
  +:+ " " +:+ ljust 15 "Metric" +:+ " " +:+ rjust 10 column.

Definition print_top_10_by_average (top_10 : list (GroupKey * Statistics))
  : result (list string) :=
  rows <~ ranked_rows (fun st => format_fixed (average st)) 1 top_10;
  Ret (top_10_header "Average" :: repeat_char 65 "-" :: rows).

Definition print_top_10_by_stddev (top_10 : list (GroupKey * Statistics))
  : result (list string) :=
  rows <~ ranked_rows (fun st => Ret (rjust 10 (fixed2 (std_dev st)))) 1 top_10;
  Ret (top_10_header "StdDev" :: repeat_char 65 "-" :: rows).

(** What [main] does with the aggregations once the rows are read. *)
Definition report (aggregations : list (GroupKey * list (option float)))
  : result (list string) :=
  stats <~ compute_stats aggregations;
  all <~ print_aggregation_results stats;
  by_avg <~ print_top_10_by_average (top_by_avg stats);
  by_stddev <~ print_top_10_by_stddev (top_by_stddev stats);
  Ret ([nl; "AGGREGATION RESULTS"; repeat_char 65 "-";
        nl +:+ "Total device+site+metric combinations: "
        +:+ decimal (Z.of_nat (List.length stats)) +:+ nl]
       ++ all
       ++ [nl; "TOP 10 BY AVERAGE VALUE"; repeat_char 65 "-"]
       ++ by_avg
       ++ [nl; "TOP 10 BY STANDARD DEVIATION (HIGHEST VARIABILITY)";
           repeat_char 65 "-"]
       ++ by_stddev).

End Report.

(** How a run of [main] ends: with the exit of [parser.error]; with the
    line [Error reading file: ...] for an exception of the loop over the
    rows; with the report; or with an exception that nothing catches. *)
Inductive outcome : Type :=
| Exit2 (message : string)
| ReadError (e : exn)
| Report (printed : list string)
| Uncaught (e : exn).

Section MainProgram.

Variable strptime : string -> string -> option datetime.
Variable float_of_str : string -> option float.
Variable fixed2 : float -> string.

(** [main] on the namespace of the command line and the rows that the
    reader yields from the file. *)
Definition main (ns : Namespace.t) (rows : list Row) : outcome :=
  match parse_arguments strptime ns with
  | Raise e => Uncaught e
  | Ret (ParserError message) => Exit2 message
  | Ret (Parsed args) =>
      match aggregate strptime float_of_str args rows with
      | Raise e => ReadError e
      | Ret aggregations =>
          match report fixed2 aggregations with
          | Ret printed => Report printed
          | Raise e => Uncaught e
          end
      end
  end.

End MainProgram.

Module Builtins.

Local Open Scope Z_scope.

Definition is_digit (c : ascii) : bool :=
  let n := nat_of_ascii c in (Nat.leb 48 n && Nat.leb n 57)%nat.

Definition digit_val (c : ascii) : Z := Z.of_nat (nat_of_ascii c) - 48.

(** ASCII lower case of one character. *)
Definition lower (c : ascii) : ascii :=
  let n := nat_of_ascii c in
  if (Nat.leb 65 n && Nat.leb n 90)%nat then ascii_of_nat (n + 32) else c.

Fixpoint lower_str (s : string) : string :=
  match s with
  | EmptyString => EmptyString
  | String c s' => String (lower c) (lower_str s')
  end.

(** The rest of a [digitpart]: digits, each optionally preceded by one
    underscore.  Returns the number read so far, how many digits it has
    and the text left. *)
Fixpoint digits_from (acc : Z) (n : Z) (s : string) : Z * Z * string :=
  match s with
  | String c s' =>
      if is_digit c then digits_from (10 * acc + digit_val c) (n + 1) s'
      else if Ascii.eqb c "_" then
        match s' with
        | String d s'' =>
            if is_digit d
            then digits_from (10 * acc + digit_val d) (n + 1) s''
            else (acc, n, s)
        | EmptyString => (acc, n, s)
        end
      else (acc, n, s)
  | EmptyString => (acc, n, s)
  end.

Definition digitpart (acc : Z) (s : string) : option (Z * Z * string) :=
  match s with
  | String c s' =>
      if is_digit c then Some (digits_from (10 * acc + digit_val c) 1 s')
      else None
  | EmptyString => None
  end.

(** [number]: [[digitpart] "." digitpart | digitpart ["."]].  Returns the
    digits as one integer, the number of digits after the point and the
    text left. *)
Definition number (s : string) : option (Z * Z * string) :=
  match digitpart 0 s with
  | Some (i, _, String "." r) =>
      match digitpart i r with
      | Some (m, k, r') => Some (m, k, r')
      | None => Some (i, 0, r)
      end
  | Some (i, _, r) => Some (i, 0, r)
  | None =>
      match s with
      | String "." r => digitpart 0 r
      | _ => None
      end
  end.

Definition sign (s : string) : bool * string :=
  match s with
  | String "-" r => (true, r)
  | String "+" r => (false, r)
  | _ => (false, s)
  end.

(** [exponent]: [("e" | "E") [sign] digitpart], or nothing. *)
Definition exponent (s : string) : option (Z * string) :=
  match s with
  | String c r =>
      if Ascii.eqb (lower c) "e" then
        let '(neg, r') := sign r in
        match digitpart 0 r' with
        | Some (e, _, r'') => Some (if neg then - e else e, r'')
        | None => None
        end
      else Some (0, s)
  | EmptyString => Some (0, s)
  end.

(** The binary64 value nearest to [m * 10^e], ties to even, for [0 < m]. *)
Definition nearest (neg : bool) (m e : Z) : spec_float :=
  if 309 <? e then S754_infinity neg
  else if Z.log2 m + 1 + 3 * e <? -1080 then S754_zero neg
  else if 0 <=? e then
    binary_normalize prec emax (cond_Zopp neg (m * 10 ^ e)) 0 neg
  else
    let '(mz, ez, lz) := SFdiv_core_binary prec emax m 0 (10 ^ (- e)) 0 in
    binary_round_aux prec emax neg mz ez lz.

(** [float(text)]: surrounding whitespace is ignored; the text is
    [[sign] ("inf" | "infinity" | "nan" | number [exponent])], letters in
    either case. *)
Definition float_of_str (text : string) : option float :=
  let '(neg, s) := sign (strip text) in
  let w := lower_str s in
  if String.eqb w "inf" || String.eqb w "infinity"
  then Some (if neg then neg_infinity else infinity)
  else if String.eqb w "nan" then Some nan
  else
    match number s with
    | Some (m, k, r) =>
        match exponent r with
        | Some (e, EmptyString) =>
            Some (SF2Prim (if m =? 0 then S754_zero neg
                           else nearest neg m (e - k)))
        | _ => None
        end
    | None => None
    end.

(** *** [datetime.strptime]

    A format is turned into a regular expression that is matched at the
    start of the text by backtracking, alternatives in order and
    repetitions longest first; the first match counts and has to use up the
    text.  A matcher returns its matches in that order. *)

Record fields : Set := mkFields {
  f_year : Z; f_month : Z; f_day : Z;
  f_hour : Z; f_minute : Z; f_second : Z;
  f_gmtoff : option (option Z);
  f_zone : option string
}.

Definition matcher : Type := fields -> string -> list (fields * string).

(** Characters in the given ranges of code points, one after the other;
    the digits among them are read as a number. *)
Fixpoint ranges (rs : list (nat * nat)) (acc : Z) (s : string)
  : option (Z * string) :=
  match rs, s with
  | [], _ => Some (acc, s)
  | (lo, hi) :: rs', String c s' =>
      let n := nat_of_ascii c in
      if (Nat.leb lo n && Nat.leb n hi)%nat
      then ranges rs' (if is_digit c then 10 * acc + digit_val c else acc) s'
      else None
  | _ :: _, EmptyString => None
  end.

Definition d (lo hi : nat) : nat * nat := (48 + lo, 48 + hi)%nat.

Definition alternatives (alts : list (list (nat * nat))) (s : string)
  : list (Z * string) :=
  omap (fun rs => ranges rs 0 s) alts.

Definition re_Y := alternatives [[d 0 9; d 0 9; d 0 9; d 0 9]].
Definition re_m := alternatives [[d 1 1; d 0 2]; [d 0 0; d 1 9]; [d 1 9]].
Definition re_d :=
  alternatives [[d 3 3; d 0 1]; [d 1 2; d 0 9]; [d 0 0; d 1 9]; [d 1 9];
                [(32, 32)%nat; d 1 9]].
Definition re_H := alternatives [[d 2 2; d 0 3]; [d 0 1; d 0 9]; [d 0 9]].
Definition re_M := alternatives [[d 0 5; d 0 9]; [d 0 9]].
Definition re_S := alternatives [[d 6 6; d 0 1]; [d 0 5; d 0 9]; [d 0 9]].

(** [\s+] *)
Fixpoint re_spaces (s : string) : list string :=
  match s with
  | String c s' => if isspace c then re_spaces s' ++ [s'] else []
  | EmptyString => []
  end%list.

(** [:?] *)
Definition re_colon (s : string) : list (bool * string) :=
  match s with
  | String ":" s' => [(true, s'); (false, s)]
  | _ => [(false, s)]
  end.

(** [\d{1,6}], with the number padded to six digits. *)
Definition re_fraction (s : string) : list (Z * string) :=
  omap (fun k => p ← ranges (replicate k (d 0 9)) 0 s;
                 Some (p.1 * 10 ^ Z.of_nat (6 - k), p.2))
       [6; 5; 4; 3; 2; 1]%nat.

(** [%z]: [[+-]\d\d:?[0-5]\d(:?[0-5]\d(\.\d{1,6})?)?|Z].  The offset is
    in microseconds; colons used before the minutes and not before the
    seconds, or the other way round, give no offset. *)
Definition re_z (s : string) : list (option Z * string) :=
  (match s with
   | String c s0 =>
       if Ascii.eqb c "+" || Ascii.eqb c "-" then
         hh ← alternatives [[d 0 9; d 0 9]] s0;
         c1 ← re_colon hh.2;
         mm ← alternatives [[d 0 5; d 0 9]] c1.2;
         let off (ss fr : Z) :=
           let v := ((hh.1 * 3600 + mm.1 * 60 + ss) * 1000000 + fr) in
           if Ascii.eqb c "-" then - v else v in
         (c2 ← re_colon mm.2;
          ss ← alternatives [[d 0 5; d 0 9]] c2.2;
          let ok (fr : Z) :=
            if Bool.eqb c1.1 c2.1 then Some (off ss.1 fr) else None in
          (match ss.2 with
           | String "." s3 => fr ← re_fraction s3; [(ok fr.1, fr.2)]
           | _ => []
           end) ++ [(ok 0, ss.2)])
         ++ [(Some (off 0 0), mm.2)]
       else []
   | EmptyString => []
   end ++
   match s with
   | String "Z" s' => [(Some 0, s')]
   | _ => []
   end)%list.

Fixpoint take_str (n : nat) (s : string) : string :=
  match n, s with
  | S n', String c s' => String c (take_str n' s')
  | _, _ => EmptyString
  end.

Fixpoint drop_str (n : nat) (s : string) : string :=
  match n, s with
  | S n', String _ s' => drop_str n' s'
  | _, _ => s
  end.

(** [%Z]: one of the zone names the locale knows, in either case. *)
Definition re_Z (zones : list string) (s : string) : list (string * string) :=
  omap (fun z =>
          let w := take_str (String.length z) s in
          if String.eqb (lower_str w) z
          then Some (w, drop_str (String.length z) s)
          else None) zones.

(** A matcher that stores what [re] reads with [upd]. *)
Definition store {V : Type} (upd : fields -> V -> fields)
    (re : string -> list (V * string)) : matcher :=
  fun f s => (fun p : V * string => (upd f p.1, p.2)) <$> re s.

Definition directive (zones : list string) (c : ascii) : option matcher :=
  let upd (k : nat) (f : fields) (v : Z) : fields :=
    let pick (i : nat) (old : Z) : Z := if Nat.eqb i k then v else old in
    mkFields (pick 0%nat (f_year f)) (pick 1%nat (f_month f))
      (pick 2%nat (f_day f)) (pick 3%nat (f_hour f))
      (pick 4%nat (f_minute f)) (pick 5%nat (f_second f))
      (f_gmtoff f) (f_zone f) in
  if Ascii.eqb c "Y" then Some (store (upd 0%nat) re_Y)
  else if Ascii.eqb c "m" then Some (store (upd 1%nat) re_m)
  else if Ascii.eqb c "d" then Some (store (upd 2%nat) re_d)
  else if Ascii.eqb c "H" then Some (store (upd 3%nat) re_H)
  else if Ascii.eqb c "M" then Some (store (upd 4%nat) re_M)
  else if Ascii.eqb c "S" then Some (store (upd 5%nat) re_S)
  else if Ascii.eqb c "z" then
    Some (store
            (fun f v =>
               mkFields (f_year f) (f_month f) (f_day f) (f_hour f)
                 (f_minute f) (f_second f) (Some v) (f_zone f))
            re_z)
  else if Ascii.eqb c "Z" then
    Some (store
            (fun f v =>
               mkFields (f_year f) (f_month f) (f_day f) (f_hour f)
                 (f_minute f) (f_second f) (f_gmtoff f) (Some v))
            (re_Z zones))
  else None.

(** The matcher of a format: a directive after [%], [\s+] for a run of
    whitespace, and any other character for itself in either case.  A
    directive that is not known makes the format invalid. *)
Fixpoint compile (zones : list string) (fmt : string) (in_space : bool)
  : option matcher :=
  match fmt with
  | EmptyString => Some (fun f s => [(f, s)])
  | String c fmt' =>
      if Ascii.eqb c "%" then
        match fmt' with
        | String x fmt'' =>
            match directive zones x, compile zones fmt'' false with
            | Some m, Some k =>
                Some (fun f s => p ← m f s; k p.1 p.2)
            | _, _ => None
            end
        | EmptyString => None
        end
      else if isspace c then
        match compile zones fmt' true with
        | Some k =>
            Some (if in_space then k
                  else fun f s => s' ← re_spaces s; k f s')
        | None => None
        end
      else
        match compile zones fmt' false with
        | Some k =>
            Some (fun f s =>
                    match s with
                    | String x s' =>
                        if Ascii.eqb (lower x) (lower c) then k f s' else []
                    | EmptyString => []
                    end)
        | None => None
        end
  end.

Definition days_in_month (y m : Z) : Z :=
  if (m =? 2) && Datetime.is_leap y then 29
  else nth (Z.to_nat m) [0; 31; 28; 31; 30; 31; 30; 31; 31; 30; 31; 30; 31] 0.

(** The [datetime] of the matched fields; a date or a second out of range
    and an offset of a day or more are errors. *)
Definition build (f : fields) : option datetime :=
  if (1 <=? f_year f) && (f_day f <=? days_in_month (f_year f) (f_month f))
     && (f_second f <=? 59) then
    match f_gmtoff f with
    | None =>
        Some (mkDatetime (f_year f) (f_month f) (f_day f) (f_hour f)
                (f_minute f) (f_second f) 0 None)
    | Some (Some off) =>
        if (-86400000000 <? off) && (off <? 86400000000) then
          Some (mkDatetime (f_year f) (f_month f) (f_day f) (f_hour f)
                  (f_minute f) (f_second f) 0
                  (Some (mkTimezone off (f_zone f))))
        else None
    | Some None => None
    end
  else None.

(** [datetime.strptime(text, fmt)] on a machine whose locale knows the
    zone names [zones], for a format made of the directives above, each at
    most once. *)
Definition strptime_in (zones : list string) (text fmt : string)
  : option datetime :=
  match compile zones fmt false with
  | Some m =>
      match m (mkFields 1900 1 1 0 0 0 None None) text with
      | (f, EmptyString) :: _ => build f
      | _ => None
      end
  | None => None
  end.

(** On a machine set to UTC. *)
Definition strptime : string -> string -> option datetime :=
  strptime_in ["utc"; "gmt"].

(** *** [format(x, '.2f')] *)

(** [n / d] rounded to the nearest integer, ties to even. *)
Definition round_half_even (n d : Z) : Z :=
  let q := n / d in
  let r := n mod d in
  match 2 * r ?= d with
  | Lt => q
  | Gt => q + 1
  | Eq => if Z.even q then q else q + 1
  end.

Definition two_digits (n : Z) : string :=
  String (ascii_of_N (Z.to_N (48 + n / 10)))
    (String (ascii_of_N (Z.to_N (48 + n mod 10))) EmptyString).

(** The value of [x] rounded to hundredths, ties to even, with two digits
    after the point. *)
Definition fixed2 (x : float) : string :=
  let sign (s : bool) : string := if s then "-" else "" in
  match Prim2SF x with
  | S754_nan => "nan"
  | S754_infinity s => sign s +:+ "inf"
  | S754_zero s => sign s +:+ "0.00"
  | S754_finite s m e =>
      let h := if 0 <=? e then Z.pos m * 100 * 2 ^ e
               else round_half_even (Z.pos m * 100) (2 ^ (- e)) in
      sign s +:+ decimal (h / 100) +:+ "." +:+ two_digits (h mod 100)
  end.

End Builtins.

(** * Vocabulary of the properties *)

Local Open Scope Z_scope.

(** The timezone step of [parse_datetime]: UTC for a value without one. *)
Definition with_utc (dt : datetime) : datetime :=
  match tzinfo dt with
  | None => replace_tzinfo dt timezone_utc
  | Some _ => dt
  end.

(** A record: a row whose columns all hold text, as [csv.DictReader] makes
    of a full line. *)
Module Reading.

Record t : Set := make {
  time : string;
  site : string;
  device : string;
  metric : string;
  unit : string;
  value : string
}.

Definition row (r : t) : Row :=
  <["time" := Some (time r)]>
    (<["site" := Some (site r)]>
       (<["device" := Some (device r)]>
          (<["metric" := Some (metric r)]>
             (<["unit" := Some (unit r)]>
                (<["value" := Some (value r)]> ∅))))).

End Reading.

(** A string criterion lets a field through: it is [None] or empty, or it
    is the field's text. *)
Definition passes (criterion : pystr) (field : string) : bool :=
  negb (truthy criterion) || bool_decide (criterion = Some field).

(** The date-range part of [should_include], for a time field that holds
    text. *)
Definition in_range (strptime : string -> string -> option datetime)
    (time : string) (args : Args) : result bool :=
  try_except
    (row_time <~ parse_datetime strptime (strip time);
     early <~ match start_date args with
              | Some sd => Datetime.lt row_time sd
              | None => Ret false
              end;
     if early then Ret false else
     late <~ match end_date args with
             | Some ed => Datetime.gt row_time ed
             | None => Ret false
             end;
     if late then Ret false else Ret true)
    [ValueError; KeyError]
    (Ret false).

(** A date criterion carries a timezone, as every value that
    [parse_datetime] returns does. *)
Definition aware (d : option datetime) : Prop :=
  forall dt, d = Some dt -> is_Some (tzinfo dt).

(** The date range as the specification words it: the stripped timestamp
    parses, and the parsed time is [>=] the start and [<=] the end, each when
    given. *)
Definition within (strptime : string -> string -> option datetime)
    (time : string) (args : Args) : Prop :=
  exists t, parse_datetime strptime (strip time) = Ret t
    /\ (forall sd, start_date args = Some sd -> Datetime.ge t sd = Ret true)
    /\ (forall ed, end_date args = Some ed -> Datetime.le t ed = Ret true).

(** The second row of the test fixture, and criteria for it. *)
Definition fixture_row : Reading.t :=
  Reading.make "2025-01-01 00:05:00 +0000 UTC" "site_1" "dev_1" "temp" "Cel"
    "20.0".

Definition fixture_args : Args :=
  {| site := Some "site_1"; device := None; metric := Some "";
     start_date := Some (mkDatetime 2025 1 1 0 0 0 0 (Some timezone_utc));
     end_date := Some (mkDatetime 2025 1 1 0 5 0 0 (Some timezone_utc)) |}.

(** [v], stored under [key], is the number that [float] made of the
    stripped, non-empty value text of a row of [rows] that passed the filter
    and has the columns of [key]. *)
Definition parsed_from (strptime : string -> string -> option datetime)
    (float_of_str : string -> option float) (args : Args) (rows : list Row)
    (key : GroupKey) (v : option float) : Prop :=
  exists (row : Row) (s : string) (f : float),
    row ∈ rows
    /\ should_include strptime row args = Ret true
    /\ key = (default None (row !! "device"), default None (row !! "site"),
              default None (row !! "metric"))
    /\ row !! "value" = Some (Some s)
    /\ strip s <> ""
    /\ float_of_str (strip s) = Some f
    /\ v = Some f.

Definition all_parsed (strptime : string -> string -> option datetime)
    (float_of_str : string -> option float) (args : Args) (rows : list Row)
    (aggs : list (GroupKey * list (option float))) : Prop :=
  forall key values v,
    (key, values) ∈ aggs -> v ∈ values ->
    parsed_from strptime float_of_str args rows key v.

(** The rows of the test fixture. *)
Definition fixture_rows : list Row :=
  Reading.row <$>
    [Reading.make "2025-01-01 00:00:00 +0000 UTC" "site_1" "dev_1" "temp"
       "Cel" "10.0";
     Reading.make "2025-01-01 00:05:00 +0000 UTC" "site_1" "dev_1" "temp"
       "Cel" "20.0";
     Reading.make "2025-01-01 00:10:00 +0000 UTC" "site_1" "dev_1" "temp"
       "Cel" "30.0";
     Reading.make "2025-01-01 00:00:00 +0000 UTC" "site_2" "dev_2" "humidity"
       "%RH" "50.0";
     Reading.make "2025-01-01 00:05:00 +0000 UTC" "site_2" "dev_2" "humidity"
       "%RH" "55.0"].

Definition no_filter : Args :=
  {| site := None; device := None; metric := None;
     start_date := None; end_date := None |}.

Definition fixture_aggregations : list (GroupKey * list (option float)) :=
  [((Some "dev_1", Some "site_1", Some "temp"),
    [Some 10%float; Some 20%float; Some 30%float]);
   ((Some "dev_2", Some "site_2", Some "humidity"),
    [Some 50%float; Some 55%float])].

(** The key of [a] is at most the key of [b]. *)
Definition key_le {A : Type} (key : A -> num) (a b : A) : Prop :=
  num_ge (key b) (key a) = true.

(** The key of [a] is at least the key of [b]. *)
Definition key_ge {A : Type} (key : A -> num) (a b : A) : Prop :=
  num_ge (key a) (key b) = true.

(** The key of [a] is not a NaN. *)
Definition ordered {A : Type} (key : A -> num) (a : A) : Prop :=
  num_is_nan (key a) = false.

(** Every entry of [l] has a key at least as large as the key of every
    later entry. *)
Definition descending {A : Type} (key : A -> num) (l : list A) : Prop :=
  forall (i j : nat) (x y : A),
    (i < j)%nat -> l !! i = Some x -> l !! j = Some y ->
    num_ge (key x) (key y) = true.

(** The result of rounding has the sign it was given, provided that the
    mantissa is not negative. *)
Definition signed (s : bool) (x : spec_float) : Prop :=
  match x with
  | S754_zero s' | S754_infinity s' | S754_finite s' _ _ => s' = s
  | S754_nan => False
  end.


(** Not negative: a signed zero, a positive value, or a NaN. *)
Definition not_negative (x : spec_float) : Prop :=
  match x with
  | S754_nan | S754_zero _ => True
  | S754_infinity s | S754_finite s _ _ => s = false
  end.




(** The square of a finite number overflows. *)
Definition sq_overflows (d : float) : bool :=
  is_finite d && is_infinity (d * d).



(** The arithmetic mean: the sum divided by the count. *)
Definition mean (vs : list float) : float :=
  (PyFloat.sum vs / PyFloat.of_nat (List.length vs))%float.

Definition squared_deviations (vs : list float) : list float :=
  (fun x => (x - mean vs) * (x - mean vs))%float <$> vs.

(** The population standard deviation: the square root of the mean of the
    squared deviations from the mean, with the count as divisor. *)
Definition population_std_dev (vs : list float) : float :=
  PrimFloat.sqrt
    (PyFloat.sum (squared_deviations vs) / PyFloat.of_nat (List.length vs)).

(** Some deviation from the mean is finite and has an infinite square. *)
Definition deviation_overflows (vs : list float) : bool :=
  existsb (fun x => sq_overflows (x - mean vs)) vs.

(** The statistics of a group that holds a NaN and of a group that holds
    [1.0]. *)
Definition nan_stats : list (GroupKey * Statistics) :=
  [((Some "dev_1", Some "site_1", Some "temp"),
    {| average := PyFloat nan; min_value := nan; max_value := nan;
       count := 1; std_dev := 0 |});
   ((Some "dev_2", Some "site_1", Some "temp"),
    {| average := PyFloat 1; min_value := 1; max_value := 1;
       count := 1; std_dev := 0 |})].

(** A date option is acceptable: not given, empty, or a text that
    [parse_datetime] accepts. *)
Definition date_ok (strptime : string -> string -> option datetime)
    (o : pystr) : Prop :=
  truthy o = false
  \/ exists s dt, o = Some s /\ parse_datetime strptime s = Ret dt.

(** What a row adds to the aggregations: its key and its number, when the
    row passes the filter and [float] accepts its stripped, non-empty value
    text. *)
Definition reading (strptime : string -> string -> option datetime)
    (float_of_str : string -> option float) (args : Args) (row : Row)
  : option (GroupKey * float) :=
  match should_include strptime row args, row !! "value" with
  | Ret true, Some (Some s) =>
      if decide (strip s = "") then None
      else
        f ← float_of_str (strip s);
        Some ((default None (row !! "device"), default None (row !! "site"),
               default None (row !! "metric")), f)
  | _, _ => None
  end.

(** The numbers that the rows add under [key], in the order of the rows. *)
Definition readings_of (strptime : string -> string -> option datetime)
    (float_of_str : string -> option float) (args : Args) (key : GroupKey)
    (rows : list Row) : list float :=
  (filter (fun kf => kf.1 = key)
     (omap (reading strptime float_of_str args) rows)).*2.

(** The values stored under [key]; none when the key is not there. *)
Fixpoint values_of (key : GroupKey)
    (aggs : list (GroupKey * list (option float))) : list (option float) :=
  match aggs with
  | [] => []
  | (k, vs) :: aggs' => if decide (k = key) then vs else values_of key aggs'
  end.

(** The number of values stored in all groups. *)
Definition stored (aggs : list (GroupKey * list (option float))) : nat :=
  sum_list (List.length <$> aggs.*2).

(** The keys of [l] in the order in which they first occur. *)
Definition first_seen (l : list GroupKey) : list GroupKey :=
  rev (remove_dups (rev l)).

(** The statistics of the two groups of the test fixture. *)
Definition fixture_stats : list (GroupKey * Statistics) :=
  [((Some "dev_1", Some "site_1", Some "temp"),
    {| average := PyFloat 20; min_value := 10; max_value := 30;
       count := 3; std_dev := PrimFloat.sqrt (200 / 3) |});
   ((Some "dev_2", Some "site_2", Some "humidity"),
    {| average := PyFloat 52.5; min_value := 50; max_value := 55;
       count := 2; std_dev := 2.5 |})].

(** The average of a group is a float, as it is for every group that is
    not empty. *)
Definition float_average (x : GroupKey * Statistics) : Prop :=
  exists a, average x.2 = PyFloat a.

(** The key of [x] is equal to the number [a]. *)
Definition key_eq {A : Type} (key : A -> num) (a : num) (x : A) : Prop :=
  num_cmp (key x) a = Some Eq.

#[global] Instance key_eq_dec {A : Type} (key : A -> num) (a : num) (x : A) :
  Decision (key_eq key a x) :=
  decide (num_cmp (key x) a = Some Eq).

(** A text of whitespace only. *)
Fixpoint blank (s : string) : bool :=
  match s with
  | EmptyString => true
  | String c s' => isspace c && blank s'
  end.

(** The three columns of a key hold text. *)
Definition text_key (key : GroupKey) : Prop :=
  is_Some key.1.1 /\ is_Some key.1.2 /\ is_Some key.2.

(** The key of [a] is below the key of [b]. *)
Definition key_before (a b : GroupKey * Statistics) : Prop :=
  key_lt a.1 b.1 = Ret true.

(** The namespace of a run without options, and of a run with a start
    date. *)
Definition no_options : Namespace.t :=
  Namespace.make "mini.csv" None None None None None.

Definition from_date : Namespace.t :=
  Namespace.make "mini.csv" None None None (Some "2025-01-01") None.

(** * Properties *)

Example compute_statistics_fixture :
  compute_statistics [Some 10%float; Some 20%float; Some 30%float]
  = Ret {| average := PyFloat 20%float; min_value := 10%float;
           max_value := 30%float; count := 3;
           std_dev := PrimFloat.sqrt (200 / 3)%float |}.
Proof. vm_compute. reflexivity. Qed.
(** ** The builtins the run is given *)

(** ** Statistics of an empty input, and [None] entries *)

Lemma valid_values_Some (vs : list float) : valid_values (map Some vs) = vs.
Proof.
  unfold valid_values. induction vs as [|v vs IH]; [done|].
  cbn. by rewrite IH.
Qed.

Lemma valid_values_app (l1 l2 : list (option float)) :
  valid_values (l1 ++ l2) = valid_values l1 ++ valid_values l2.
Proof. apply omap_app. Qed.

Lemma valid_values_filter (values : list (option float)) :
  valid_values (filter is_Some values) = valid_values values.
Proof.
  unfold valid_values.
  induction values as [|[v|] values IH]; [done| |].
  - rewrite filter_cons_True by eauto. cbn. by rewrite IH.
  - rewrite filter_cons_False by (intros [? ?]; done). done.
Qed.

Lemma compute_statistics_valid (l1 l2 : list (option float)) :
  valid_values l1 = valid_values l2 ->
  compute_statistics l1 = compute_statistics l2.
Proof. unfold compute_statistics. by intros ->. Qed.

(** C7: on the empty sequence [compute_statistics] returns, without raising,
    the statistics whose five entries are zero: average the int [0], min, max
    and std_dev the float [0.0], count [0]. *)
Theorem compute_statistics_empty :
  compute_statistics [] =
    Ret {| average := PyInt 0; min_value := 0%float; max_value := 0%float;
           count := 0; std_dev := 0%float |}.
Proof. reflexivity. Qed.

(** C10: for every list of optional values, [compute_statistics] returns what
    it returns on the sublist without the [None] entries, statistics and
    errors alike; a [None] put anywhere into a list changes nothing. *)
Theorem compute_statistics_ignores_None (values : list (option float)) :
  compute_statistics values = compute_statistics (filter is_Some values)
  /\ compute_statistics values
     = compute_statistics (map Some (valid_values values))
  /\ forall l : list (option float),
       compute_statistics (l ++ None :: values)
       = compute_statistics (l ++ values).
Proof.
  split; [|split].
  - apply compute_statistics_valid. by rewrite valid_values_filter.
  - apply compute_statistics_valid. by rewrite valid_values_Some.
  - intros l. apply compute_statistics_valid.
    by rewrite !valid_values_app.
Qed.

(** ** The value parser *)

(** C6: for every raw value, [None] included, [convert_to_float] returns and
    never raises: [None] for [None], for text that is empty once stripped and
    for text that [float] rejects, and otherwise the number that [float]
    makes of the stripped text. *)
Theorem convert_to_float_total (float_of_str : string -> option float)
    (value_str : pystr) :
  convert_to_float float_of_str value_str =
    Ret match value_str with
        | None => None
        | Some s => if decide (strip s = "") then None
                    else float_of_str (strip s)
        end.
Proof.
  destruct value_str as [s|]; [|done]. unfold convert_to_float.
  destruct (String.eqb_spec (strip s) "") as [E|E].
  - by rewrite decide_True.
  - rewrite decide_False by done. unfold call_float.
    by destruct (float_of_str (strip s)).
Qed.

(** ** The timestamp parser *)

Lemma with_utc_aware (dt : datetime) : is_Some (tzinfo (with_utc dt)).
Proof. unfold with_utc. destruct (tzinfo dt) eqn:E; [rewrite E|]; eauto. Qed.

Lemma parse_datetime_unfold (strptime : string -> string -> option datetime)
    (text : string) :
  parse_datetime strptime text =
    match strptime text "%Y-%m-%d %H:%M:%S %z %Z",
          strptime text "%Y-%m-%d %H:%M:%S",
          strptime text "%Y-%m-%d" with
    | Some dt, _, _ => Ret (with_utc dt)
    | None, Some dt, _ => Ret (with_utc dt)
    | None, None, Some dt => Ret (with_utc dt)
    | None, None, None => Raise ValueError
    end.
Proof.
  unfold parse_datetime, formats, parse_datetime_loop, parse_with.
  unfold call_strptime.
  destruct (strptime text "%Y-%m-%d %H:%M:%S %z %Z"); [done|].
  destruct (strptime text "%Y-%m-%d %H:%M:%S"); [done|].
  by destruct (strptime text "%Y-%m-%d").
Qed.

(** C5: for every text, [parse_datetime] returns what the first of the three
    formats, in their order, on which [strptime] succeeds gives, with UTC put
    where that value has no timezone and the value left as it is otherwise;
    it raises, a [ValueError], exactly when [strptime] fails on all three. *)
Theorem parse_datetime_first_format
    (strptime : string -> string -> option datetime) (text : string) :
  parse_datetime strptime text =
    match strptime text "%Y-%m-%d %H:%M:%S %z %Z",
          strptime text "%Y-%m-%d %H:%M:%S",
          strptime text "%Y-%m-%d" with
    | Some dt, _, _ => Ret (with_utc dt)
    | None, Some dt, _ => Ret (with_utc dt)
    | None, None, Some dt => Ret (with_utc dt)
    | None, None, None => Raise ValueError
    end
  /\ ((exists e, parse_datetime strptime text = Raise e)
      <-> Forall (fun fmt => strptime text fmt = None) formats)
  /\ (forall e, parse_datetime strptime text = Raise e -> e = ValueError)
  /\ (forall dt, with_utc dt =
        match tzinfo dt with
        | None => {| year := year dt; month := month dt; day := day dt;
                     hour := hour dt; minute := minute dt;
                     second := second dt; microsecond := microsecond dt;
                     tzinfo := Some timezone_utc |}
        | Some _ => dt
        end).
Proof.
  split; [apply parse_datetime_unfold|]. rewrite parse_datetime_unfold.
  unfold formats. rewrite !Forall_cons, Forall_nil.
  destruct (strptime text "%Y-%m-%d %H:%M:%S %z %Z");
    destruct (strptime text "%Y-%m-%d %H:%M:%S");
    destruct (strptime text "%Y-%m-%d");
    (split; [split; [intros [? ?]; try done | intros (? & ? & ? & _); try done]
            | split; [intros ? ?; congruence | done]]); eauto.
Qed.

Example parse_datetime_fixture :
  parse_datetime Builtins.strptime "2025-01-01 00:05:00 +0000 UTC"
  = Ret (mkDatetime 2025 1 1 0 5 0 0 (Some (mkTimezone 0 (Some "UTC")))).
Proof. vm_compute. reflexivity. Qed.

Example parse_datetime_date_only :
  parse_datetime Builtins.strptime "2025-01-01"
  = Ret (mkDatetime 2025 1 1 0 0 0 0 (Some timezone_utc)).
Proof. vm_compute. reflexivity. Qed.

Example parse_datetime_malformed :
  parse_datetime Builtins.strptime "01/01/2025" = Raise ValueError.
Proof. vm_compute. reflexivity. Qed.

(** ** The row filter *)

Lemma getitem_time (r : Reading.t) :
  getitem (Reading.row r) "time" = Ret (Some (Reading.time r)).
Proof. unfold getitem, Reading.row. by simplify_map_eq. Qed.

Lemma getitem_site (r : Reading.t) :
  getitem (Reading.row r) "site" = Ret (Some (Reading.site r)).
Proof. unfold getitem, Reading.row. by simplify_map_eq. Qed.

Lemma getitem_device (r : Reading.t) :
  getitem (Reading.row r) "device" = Ret (Some (Reading.device r)).
Proof. unfold getitem, Reading.row. by simplify_map_eq. Qed.

Lemma getitem_metric (r : Reading.t) :
  getitem (Reading.row r) "metric" = Ret (Some (Reading.metric r)).
Proof. unfold getitem, Reading.row. by simplify_map_eq. Qed.

Lemma getitem_value (r : Reading.t) :
  getitem (Reading.row r) "value" = Ret (Some (Reading.value r)).
Proof. unfold getitem, Reading.row. by simplify_map_eq. Qed.

Lemma criterion_misses_reading (row : Row) (k : string) (f : pystr)
    (field : string) :
  getitem row k = Ret (Some field) ->
  criterion_misses row k f = Ret (negb (passes f field)).
Proof.
  intros G. unfold criterion_misses, passes. rewrite G.
  destruct f as [s|]; [|done]. cbn.
  destruct (String.eqb_spec s ""); cbn; [done|].
  destruct (String.eqb_spec field s).
  - subst. by rewrite bool_decide_eq_true_2.
  - rewrite bool_decide_eq_false_2; [done|]. congruence.
Qed.

Lemma should_include_reading (strptime : string -> string -> option datetime)
    (r : Reading.t) (args : Args) :
  should_include strptime (Reading.row r) args =
    if passes (site args) (Reading.site r)
       && passes (device args) (Reading.device r)
       && passes (metric args) (Reading.metric r)
    then if given (start_date args) || given (end_date args)
         then in_range strptime (Reading.time r) args
         else Ret true
    else Ret false.
Proof.
  unfold should_include, in_range.
  rewrite (criterion_misses_reading _ _ _ _ (getitem_site r)).
  rewrite (criterion_misses_reading _ _ _ _ (getitem_device r)).
  rewrite (criterion_misses_reading _ _ _ _ (getitem_metric r)).
  rewrite getitem_time. cbn.
  destruct (passes (site args) _); cbn; [|done].
  destruct (passes (device args) _); cbn; [|done].
  by destruct (passes (metric args) _).
Qed.

Lemma parse_datetime_raises (strptime : string -> string -> option datetime)
    (text : string) (e : exn) :
  parse_datetime strptime text = Raise e -> e = ValueError.
Proof.
  rewrite parse_datetime_unfold.
  destruct (strptime text "%Y-%m-%d %H:%M:%S %z %Z");
    destruct (strptime text "%Y-%m-%d %H:%M:%S");
    destruct (strptime text "%Y-%m-%d"); congruence.
Qed.

Lemma parse_datetime_aware (strptime : string -> string -> option datetime)
    (text : string) (dt : datetime) :
  parse_datetime strptime text = Ret dt -> is_Some (tzinfo dt).
Proof.
  rewrite parse_datetime_unfold.
  destruct (strptime text "%Y-%m-%d %H:%M:%S %z %Z");
    destruct (strptime text "%Y-%m-%d %H:%M:%S");
    destruct (strptime text "%Y-%m-%d"); intros [= <-];
    apply with_utc_aware.
Qed.

(** C4: for every record, when a start or an end date is given and the
    stripped timestamp of the record does not parse, [should_include] returns
    [False] and raises nothing; when neither is given, its result depends
    neither on [strptime] nor on the timestamp, so no parse is attempted and
    no timestamp excludes the record. *)
Theorem should_include_unparsable_time
    (strptime : string -> string -> option datetime) (r : Reading.t)
    (args : Args) :
  (given (start_date args) || given (end_date args) = true ->
   (exists e, parse_datetime strptime (strip (Reading.time r)) = Raise e) ->
   should_include strptime (Reading.row r) args = Ret false)
  /\ (start_date args = None -> end_date args = None ->
      should_include strptime (Reading.row r) args =
        Ret (passes (site args) (Reading.site r)
             && passes (device args) (Reading.device r)
             && passes (metric args) (Reading.metric r))
      /\ forall (strptime' : string -> string -> option datetime)
           (time' : string),
           should_include strptime'
             (Reading.row
                (Reading.make time' (Reading.site r) (Reading.device r)
                   (Reading.metric r) (Reading.unit r) (Reading.value r)))
             args
           = should_include strptime (Reading.row r) args).
Proof.
  split.
  - intros G [e E]. rewrite should_include_reading, G.
    pose proof (parse_datetime_raises _ _ _ E) as ->.
    unfold in_range. rewrite E. cbn.
    by destruct (_ && _).
  - intros S E. split.
    + rewrite should_include_reading, S, E. cbn. by destruct (_ && _).
    + intros strptime' time'. rewrite !should_include_reading, S, E. done.
Qed.

Lemma cmp_aware (a b : datetime) :
  is_Some (tzinfo a) -> is_Some (tzinfo b) ->
  exists c, Datetime.cmp a b = Ret c.
Proof.
  intros [ta Ha] [tb Hb]. unfold Datetime.cmp, Datetime.offset.
  rewrite Ha, Hb. cbn. destruct (_ =? _)%Z; eauto.
Qed.

Lemma passes_spec (criterion : pystr) (field : string) :
  passes criterion field = true <->
  criterion = None \/ criterion = Some "" \/ criterion = Some field.
Proof.
  unfold passes, truthy. destruct criterion as [s|]; cbn; [|tauto].
  destruct (String.eqb_spec s "") as [->|N]; cbn; [tauto|].
  rewrite bool_decide_eq_true. split; [tauto|].
  intros [?|[?|?]]; congruence.
Qed.

Lemma in_range_spec (strptime : string -> string -> option datetime)
    (time : string) (args : Args) :
  aware (start_date args) -> aware (end_date args) ->
  exists b, in_range strptime time args = Ret b
    /\ (b = true <-> within strptime time args).
Proof.
  intros As Ae. unfold in_range, within.
  destruct (parse_datetime strptime (strip time)) as [t|e] eqn:P.
  2:{ pose proof (parse_datetime_raises _ _ _ P) as ->. cbn.
      exists false. split; [done|]. split; [done|]. by intros (? & ? & _). }
  pose proof (parse_datetime_aware _ _ _ P) as At. cbn.
  assert (exists b1, match start_date args with
                     | Some sd => Datetime.lt t sd
                     | None => Ret false
                     end = Ret b1
            /\ (b1 = false <->
                forall sd,
                  start_date args = Some sd -> Datetime.ge t sd = Ret true))
    as (b1 & -> & H1).
  { destruct (start_date args) as [sd|].
    - destruct (cmp_aware t sd At (As _ eq_refl)) as [c C].
      unfold Datetime.lt, Datetime.ge, Datetime.of_cmp. rewrite C. cbn.
      eexists; split; [done|]. split.
      + intros E ? [= <-]. rewrite C. cbn. by destruct c.
      + intros E. specialize (E _ eq_refl). rewrite C in E. cbn in E.
        by destruct c.
    - exists false. split; [done|]. split; [by intros|done]. }
  assert (exists b2, match end_date args with
                     | Some ed => Datetime.gt t ed
                     | None => Ret false
                     end = Ret b2
            /\ (b2 = false <->
                forall ed,
                  end_date args = Some ed -> Datetime.le t ed = Ret true))
    as (b2 & -> & H2).
  { destruct (end_date args) as [ed|].
    - destruct (cmp_aware t ed At (Ae _ eq_refl)) as [c C].
      unfold Datetime.gt, Datetime.le, Datetime.of_cmp. rewrite C. cbn.
      eexists; split; [done|]. split.
      + intros E ? [= <-]. rewrite C. cbn. by destruct c.
      + intros E. specialize (E _ eq_refl). rewrite C in E. cbn in E.
        by destruct c.
    - exists false. split; [done|]. split; [by intros|done]. }
  cbn. destruct b1; cbn.
  { exists false. split; [done|]. split; [done|].
    intros (t' & [= <-] & G & _). apply H1 in G. done. }
  destruct b2; cbn.
  { exists false. split; [done|]. split; [done|].
    intros (t' & [= <-] & _ & G). apply H2 in G. done. }
  exists true. split; [done|]. split; [|done].
  intros _. exists t. split; [done|]. split; [by apply H1|by apply H2].
Qed.

(** C2, amended: for every record and all criteria whose dates carry a
    timezone, [should_include] returns, and returns [True] exactly when each
    of the site, device and metric criteria is absent, empty or equal to the
    field of the record, and, when a start or an end date is given, the
    stripped timestamp parses to a time [>=] the start and [<=] the end, each
    when given. *)
Theorem should_include_iff (strptime : string -> string -> option datetime)
    (r : Reading.t) (args : Args) :
  aware (start_date args) -> aware (end_date args) ->
  exists b, should_include strptime (Reading.row r) args = Ret b
    /\ (b = true <->
        (site args = None \/ site args = Some ""
         \/ site args = Some (Reading.site r))
        /\ (device args = None \/ device args = Some ""
            \/ device args = Some (Reading.device r))
        /\ (metric args = None \/ metric args = Some ""
            \/ metric args = Some (Reading.metric r))
        /\ ((start_date args = None /\ end_date args = None)
            \/ within strptime (Reading.time r) args)).
Proof.
  intros As Ae. rewrite should_include_reading.
  pose proof (passes_spec (site args) (Reading.site r)) as Ps.
  pose proof (passes_spec (device args) (Reading.device r)) as Pd.
  pose proof (passes_spec (metric args) (Reading.metric r)) as Pm.
  destruct (passes (site args) _); cbn;
    [|exists false; split; [done|]; split; [done|];
      intros (? & _); by apply Ps].
  destruct (passes (device args) _); cbn;
    [|exists false; split; [done|]; split; [done|];
      intros (_ & ? & _); by apply Pd].
  destruct (passes (metric args) _); cbn;
    [|exists false; split; [done|]; split; [done|];
      intros (_ & _ & ? & _); by apply Pm].
  assert (forall P : Prop,
             P <-> (site args = None \/ site args = Some ""
                    \/ site args = Some (Reading.site r))
                   /\ (device args = None \/ device args = Some ""
                       \/ device args = Some (Reading.device r))
                   /\ (metric args = None \/ metric args = Some ""
                       \/ metric args = Some (Reading.metric r))
                   /\ P) as Drop.
  { intros P. split; [|by intros (_ & _ & _ & ?)]. intros HP.
    split; [by apply Ps|]. split; [by apply Pd|]. split; [by apply Pm|done]. }
  destruct (in_range_spec strptime (Reading.time r) args As Ae) as (b & R & Hb).
  destruct (start_date args) as [sd|] eqn:S; cbn.
  { exists b. split; [done|]. rewrite <- Drop, Hb.
    split; [auto|]. intros [[? _]|?]; done. }
  destruct (end_date args) as [ed|] eqn:E; cbn.
  { exists b. split; [done|]. rewrite <- Drop, Hb. split; [auto|].
    intros [[_ ?]|?]; done. }
  exists true. split; [done|]. rewrite <- Drop. split; [|done]. auto.
Qed.

Lemma should_include_iff_witness :
  aware (start_date fixture_args) /\ aware (end_date fixture_args)
  /\ should_include Builtins.strptime (Reading.row fixture_row) fixture_args
     = Ret true.
Proof.
  assert (aware (start_date fixture_args)) as As
    by (intros dt [= <-]; cbn; eauto).
  assert (aware (end_date fixture_args)) as Ae
    by (intros dt [= <-]; cbn; eauto).
  split; [exact As|]. split; [exact Ae|].
  destruct (should_include_iff Builtins.strptime fixture_row fixture_args As Ae)
    as (b & -> & Hb).
  f_equal. apply Hb.
  split; [right; right; reflexivity|].
  split; [left; reflexivity|].
  split; [right; left; reflexivity|].
  right. eexists. split; [vm_compute; reflexivity|].
  split; intros ? [= <-]; vm_compute; reflexivity.
Defined.

(** Rows that are not records: a short line leaves [None] in the time
    column, and [None.strip()] raises; a file without a time column gives a
    [KeyError] that the filter catches; a file without a site column gives
    one that it does not. *)
Example should_include_short_row :
  should_include Builtins.strptime
    (<["time" := None]> (Reading.row fixture_row)) fixture_args
  = Raise AttributeError.
Proof. vm_compute. reflexivity. Qed.

Example should_include_no_time_column :
  should_include Builtins.strptime
    (delete "time" (Reading.row fixture_row)) fixture_args
  = Ret false.
Proof. vm_compute. reflexivity. Qed.

Example should_include_no_site_column :
  should_include Builtins.strptime
    (delete "site" (Reading.row fixture_row)) fixture_args
  = Raise KeyError.
Proof. vm_compute. reflexivity. Qed.

(** C2 as stated fails: with the empty string for the site criterion, a
    record of another site is included, though the criterion is neither
    absent nor equal to the site of the record. *)
Lemma should_include_empty_site :
  should_include Builtins.strptime (Reading.row fixture_row)
    {| site := Some ""; device := None; metric := None;
       start_date := None; end_date := None |}
  = Ret true
  /\ ~ (Some "" = @None string \/ Some "" = Some (Reading.site fixture_row)).
Proof.
  split; [vm_compute; reflexivity|]. intros [?|?]; discriminate.
Qed.

(** ** What the run stores *)

Section Stored.

Variable strptime : string -> string -> option datetime.
Variable float_of_str : string -> option float.
Variable args : Args.

Lemma append_value_elem (key : GroupKey) (v : option float)
    (aggs : list (GroupKey * list (option float))) (k : GroupKey)
    (vs : list (option float)) (x : option float) :
  (k, vs) ∈ append_value key v aggs -> x ∈ vs ->
  (exists vs0, (k, vs0) ∈ aggs /\ x ∈ vs0) \/ (k = key /\ x = v).
Proof.
  induction aggs as [|[k0 vs0] aggs IH]; cbn.
  - intros [= -> ->]%list_elem_of_singleton ->%list_elem_of_singleton.
    by right.
  - destruct (decide (k0 = key)) as [->|N].
    + intros [E|E]%elem_of_cons X.
      * injection E as -> ->. apply elem_of_app in X as [X|X].
        -- left. exists vs0. split; [left|done].
        -- apply list_elem_of_singleton in X. by right.
      * left. exists vs. split; [by right|done].
    + intros [E|E]%elem_of_cons X.
      * injection E as -> ->. left. exists vs0. split; [left|done].
      * destruct (IH E X) as [(vs1 & ? & ?)|?]; [|by right].
        left. exists vs1. split; [by right|done].
Qed.

Lemma append_value_nonempty (key : GroupKey) (v : option float)
    (aggs : list (GroupKey * list (option float))) :
  Forall (fun kv => kv.2 <> []) aggs ->
  Forall (fun kv => kv.2 <> []) (append_value key v aggs).
Proof.
  induction 1 as [|[k0 vs0] aggs H0 H IH]; cbn.
  - by repeat constructor.
  - destruct (decide (k0 = key)); constructor; try done.
    cbn. by destruct vs0.
Qed.

(** What one row does to the aggregations. *)
Lemma process_row_spec (aggs aggs' : list (GroupKey * list (option float)))
    (row : Row) :
  process_row strptime float_of_str args aggs row = Ret aggs' ->
  aggs' = aggs
  \/ exists (s : string) (f : float),
       should_include strptime row args = Ret true
       /\ row !! "value" = Some (Some s)
       /\ strip s <> ""
       /\ float_of_str (strip s) = Some f
       /\ aggs' = append_value
                    (default None (row !! "device"),
                     default None (row !! "site"),
                     default None (row !! "metric"))
                    (Some f) aggs.
Proof.
  unfold process_row, getitem.
  destruct (should_include strptime row args) as [[|]|] eqn:I; cbn;
    [|intros [= <-]; by left|done].
  destruct (row !! "device") as [d|]; cbn; [|done].
  destruct (row !! "site") as [s|]; cbn; [|done].
  destruct (row !! "metric") as [m|]; cbn; [|done].
  destruct (row !! "value") as [raw|]; cbn; [|done].
  rewrite convert_to_float_total. cbn.
  destruct raw as [text|]; [|intros [= <-]; by left].
  destruct (decide (strip text = "")); [intros [= <-]; by left|].
  destruct (float_of_str (strip text)) as [f|] eqn:F;
    [|intros [= <-]; by left].
  intros [= <-]. right. exists text, f. done.
Qed.

Lemma aggregate_from_parsed (all rows : list Row)
    (aggs aggs' : list (GroupKey * list (option float))) :
  rows ⊆ all ->
  all_parsed strptime float_of_str args all aggs ->
  aggregate_from strptime float_of_str args aggs rows = Ret aggs' ->
  all_parsed strptime float_of_str args all aggs'.
Proof.
  revert aggs. induction rows as [|row rows IH]; intros aggs Sub Inv; cbn.
  - by intros [= <-].
  - destruct (process_row strptime float_of_str args aggs row) as [aggs1|]
      eqn:P; cbn; [|done].
    apply IH; [set_solver|].
    apply process_row_spec in P as [->|(s & f & I & V & N & F & ->)];
      [done|].
    intros key values v K X.
    destruct (append_value_elem _ _ _ _ _ _ K X) as [(vs0 & ? & ?)|[-> ->]].
    + by eapply Inv.
    + exists row, s, f. split; [set_solver|done].
Qed.

Lemma aggregate_from_nonempty (rows : list Row)
    (aggs aggs' : list (GroupKey * list (option float))) :
  Forall (fun kv => kv.2 <> []) aggs ->
  aggregate_from strptime float_of_str args aggs rows = Ret aggs' ->
  Forall (fun kv => kv.2 <> []) aggs'.
Proof.
  revert aggs. induction rows as [|row rows IH]; intros aggs Inv; cbn.
  - by intros [= <-].
  - destruct (process_row strptime float_of_str args aggs row) as [aggs1|]
      eqn:P; cbn; [|done].
    apply IH.
    apply process_row_spec in P as [->|(s & f & _ & _ & _ & _ & ->)];
      [done|].
    by apply append_value_nonempty.
Qed.

End Stored.

(** C3, amended: for every run that reaches the end of the rows, every
    value stored in a group is a number, never [None], that [float] returned
    for the stripped, non-empty value text of a row that passed the filter
    and has the columns of the group (the number may be an infinity or a NaN,
    which [float] returns for texts such as [inf] and [nan]); no group is
    empty; and a row whose value is [None], empty once stripped, or rejected
    by [float] leaves the aggregations as they are. *)
Theorem aggregate_stores_parsed
    (strptime : string -> string -> option datetime)
    (float_of_str : string -> option float) (args : Args) (rows : list Row)
    (aggs : list (GroupKey * list (option float))) :
  aggregate strptime float_of_str args rows = Ret aggs ->
  all_parsed strptime float_of_str args rows aggs
  /\ (forall key values,
        (key, values) ∈ aggs -> (None ∉ values) /\ values <> [])
  /\ (forall aggs0 aggs1 row,
        process_row strptime float_of_str args aggs0 row = Ret aggs1 ->
        convert_to_float float_of_str (default None (row !! "value"))
          = Ret None ->
        aggs1 = aggs0).
Proof.
  intros A.
  assert (all_parsed strptime float_of_str args rows aggs) as P.
  { eapply aggregate_from_parsed; [done| |exact A]. intros ? ? ? K.
    by apply elem_of_nil in K. }
  split; [exact P|]. split.
  - intros key values K. split.
    + intros X.
      by destruct (P _ _ _ K X) as (? & ? & ? & _ & _ & _ & _ & _ & _ & ?).
    + apply aggregate_from_nonempty in A; [|constructor].
      rewrite Forall_forall in A. exact (A _ K).
  - intros aggs0 aggs1 row R C.
    apply process_row_spec in R as [->|(s & f & _ & V & N & F & _)]; [done|].
    rewrite V, convert_to_float_total in C. cbn in C.
    rewrite decide_False, F in C by done. done.
Qed.

Lemma aggregate_stores_parsed_witness :
  aggregate Builtins.strptime Builtins.float_of_str no_filter fixture_rows
  = Ret fixture_aggregations
  /\ all_parsed Builtins.strptime Builtins.float_of_str no_filter
       fixture_rows fixture_aggregations.
Proof.
  assert (aggregate Builtins.strptime Builtins.float_of_str no_filter
            fixture_rows = Ret fixture_aggregations) as A
    by (vm_compute; reflexivity).
  split; [exact A|].
  exact (proj1 (aggregate_stores_parsed _ _ _ _ _ A)).
Defined.

(** C3 as stated fails: the value text [inf] parses, and the infinity is
    stored. *)
Lemma aggregate_stores_infinity :
  aggregate Builtins.strptime Builtins.float_of_str no_filter
    [Reading.row
       (Reading.make "2025-01-01 00:00:00 +0000 UTC" "site_1" "dev_1" "temp"
          "Cel" "inf")]
  = Ret [((Some "dev_1", Some "site_1", Some "temp"), [Some infinity])]
  /\ is_finite infinity = false.
Proof. split; vm_compute; reflexivity. Qed.

(** ** Floats: comparison is comparison of exact values *)

Lemma digits2_pos_bounds (p : positive) :
  2 ^ (Z.pos (digits2_pos p) - 1) <= Z.pos p < 2 ^ Z.pos (digits2_pos p).
Proof.
  induction p as [p IH|p IH|]; cbn [digits2_pos].
  - rewrite Pos2Z.inj_succ.
    replace (Z.succ (Z.pos (digits2_pos p)) - 1)
      with (Z.succ (Z.pos (digits2_pos p) - 1)) by lia.
    rewrite !Z.pow_succ_r by lia. lia.
  - rewrite Pos2Z.inj_succ.
    replace (Z.succ (Z.pos (digits2_pos p)) - 1)
      with (Z.succ (Z.pos (digits2_pos p) - 1)) by lia.
    rewrite !Z.pow_succ_r by lia. lia.
  - cbn. lia.
Qed.

(** What [valid_binary] says of a finite binary64 value. *)
Lemma valid_finite (s : bool) (m : positive) (e : Z) :
  valid_binary (S754_finite s m e) = true ->
  -1074 <= e <= 971
  /\ Z.pos (digits2_pos m) <= 53
  /\ (-1074 < e -> Z.pos (digits2_pos m) = 53).
Proof.
  cbn. unfold bounded, canonical_mantissa, fexp, SpecFloat.emin, emax, prec.
  intros [C B]%andb_prop. apply Z.eqb_eq in C. apply Z.leb_le in B. lia.
Qed.

Lemma finite_value_lt (m1 m2 : positive) (e1 e2 : Z) :
  valid_binary (S754_finite false m1 e1) = true ->
  valid_binary (S754_finite false m2 e2) = true ->
  e1 < e2 ->
  Z.pos m1 * 2 ^ (e1 + 1074) < Z.pos m2 * 2 ^ (e2 + 1074).
Proof.
  intros (B1 & D1 & _)%valid_finite (B2 & _ & D2)%valid_finite L.
  specialize (D2 ltac:(lia)).
  pose proof (digits2_pos_bounds m1) as [_ U1].
  pose proof (digits2_pos_bounds m2) as [L2 _]. rewrite D2 in L2.
  assert (Z.pos m1 < 2 ^ 53) as U.
  { eapply Z.lt_le_trans; [exact U1|]. apply Z.pow_le_mono_r; lia. }
  assert (2 ^ (e1 + 1075) <= 2 ^ (e2 + 1074)) as P
    by (apply Z.pow_le_mono_r; lia).
  replace (e1 + 1075) with (Z.succ (e1 + 1074)) in P by lia.
  rewrite Z.pow_succ_r in P by lia.
  assert (0 < 2 ^ (e1 + 1074)) by (apply Z.pow_pos_nonneg; lia).
  change (2 ^ (53 - 1)) with 4503599627370496 in L2.
  change (2 ^ 53) with 9007199254740992 in U.
  nia.
Qed.

Lemma cmp_scaled (m1 m2 : positive) (k : Z) :
  0 <= k ->
  (Z.pos m1 * 2 ^ k ?= Z.pos m2 * 2 ^ k) = Pos.compare_cont Eq m1 m2.
Proof.
  intros K. assert (0 < 2 ^ k) by (apply Z.pow_pos_nonneg; lia).
  change (Pos.compare_cont Eq m1 m2) with (Z.pos m1 ?= Z.pos m2).
  destruct (Z.compare_spec (Z.pos m1) (Z.pos m2)) as [E|L|G].
  - rewrite E. apply Z.compare_refl.
  - apply Z.compare_lt_iff. nia.
  - apply Z.compare_gt_iff. nia.
Qed.

Lemma cmp_opp (a b : Z) : (- a ?= - b) = CompOpp (a ?= b).
Proof. rewrite Z.compare_opp. apply Z.compare_antisym. Qed.

(** IEEE comparison is comparison of the exact values. *)
Lemma SFcompare_value (a b : spec_float) :
  valid_binary a = true -> valid_binary b = true ->
  SFcompare a b =
    match sf_value a, sf_value b with
    | Some x, Some y => Some (xnum_cmp x y)
    | _, _ => None
    end.
Proof.
  intros Va Vb.
  destruct a as [sa|sa| |sa ma ea], b as [sb|sb| |sb mb eb];
    cbn [SFcompare sf_value xnum_cmp]; try done;
    try (by destruct sa); try (by destruct sb); try (by destruct sa, sb).
  - (* zero, finite *)
    apply valid_finite in Vb as (B & _).
    assert (0 < Z.pos mb * 2 ^ (eb + 1074))
      by (apply Z.mul_pos_pos; [lia|apply Z.pow_pos_nonneg; lia]).
    destruct sb; cbn [cond_Zopp]; f_equal; symmetry;
      [apply Z.compare_gt_iff|apply Z.compare_lt_iff]; lia.
  - apply valid_finite in Va as (B & _).
    assert (0 < Z.pos ma * 2 ^ (ea + 1074))
      by (apply Z.mul_pos_pos; [lia|apply Z.pow_pos_nonneg; lia]).
    destruct sa; cbn [cond_Zopp]; f_equal; symmetry;
      [apply Z.compare_lt_iff|apply Z.compare_gt_iff]; lia.
  - pose proof (valid_finite _ _ _ Va) as (Ba & _).
    pose proof (valid_finite _ _ _ Vb) as (Bb & _).
    assert (0 < Z.pos ma * 2 ^ (ea + 1074))
      by (apply Z.mul_pos_pos; [lia|apply Z.pow_pos_nonneg; lia]).
    assert (0 < Z.pos mb * 2 ^ (eb + 1074))
      by (apply Z.mul_pos_pos; [lia|apply Z.pow_pos_nonneg; lia]).
    assert (valid_binary (S754_finite false ma ea) = true) as Va' by exact Va.
    assert (valid_binary (S754_finite false mb eb) = true) as Vb' by exact Vb.
    f_equal. destruct sa, sb; cbn [cond_Zopp].
    + rewrite cmp_opp.
      destruct (Z.compare_spec ea eb) as [->|L|G].
      * by rewrite cmp_scaled by lia.
      * pose proof (finite_value_lt _ _ _ _ Va' Vb' L) as F.
        by rewrite (proj2 (Z.compare_lt_iff _ _) F).
      * pose proof (finite_value_lt _ _ _ _ Vb' Va' ltac:(lia)) as F.
        by rewrite (proj2 (Z.compare_gt_iff _ _) F).
    + symmetry. apply Z.compare_lt_iff. lia.
    + symmetry. apply Z.compare_gt_iff. lia.
    + destruct (Z.compare_spec ea eb) as [->|L|G].
      * by rewrite cmp_scaled by lia.
      * pose proof (finite_value_lt _ _ _ _ Va' Vb' L) as F.
        by rewrite (proj2 (Z.compare_lt_iff _ _) F).
      * pose proof (finite_value_lt _ _ _ _ Vb' Va' ltac:(lia)) as F.
        by rewrite (proj2 (Z.compare_gt_iff _ _) F).
Qed.



Lemma leb_value (x y : float) :
  (x <=? y)%float = num_ge (PyFloat y) (PyFloat x).
Proof.
  rewrite FloatAxioms.leb_spec. unfold num_ge, SFleb, num_cmp, num_value.
  rewrite SFcompare_value by apply Prim2SF_valid.
  destruct (sf_value (Prim2SF x)) as [a|], (sf_value (Prim2SF y)) as [b|];
    try done.
  destruct a as [|a|], b as [|b|]; cbn; try done.
  rewrite (Z.compare_antisym a b). by destruct (a ?= b).
Qed.

Lemma is_nan_value (x : float) : is_nan x = num_is_nan (PyFloat x).
Proof.
  unfold is_nan, num_is_nan, num_value.
  rewrite FloatAxioms.eqb_spec. unfold SFeqb.
  rewrite SFcompare_value by apply Prim2SF_valid.
  destruct (sf_value (Prim2SF x)) as [[|a|]|]; cbn; try done.
  by rewrite Z.compare_refl.
Qed.

(** ** The order of numbers other than NaN *)

Lemma xnum_cmp_antisym (a b : xnum) : xnum_cmp b a = CompOpp (xnum_cmp a b).
Proof. destruct a, b; cbn; try done. apply Z.compare_antisym. Qed.

Lemma xnum_cmp_trans (a b c : xnum) :
  xnum_cmp a b <> Gt -> xnum_cmp b c <> Gt -> xnum_cmp a c <> Gt.
Proof.
  destruct a as [|a|], b as [|b|], c as [|c|]; cbn; try done.
  rewrite !Z.compare_gt_iff. lia.
Qed.

Lemma num_lt_ge (a b : num) :
  num_is_nan a = false -> num_is_nan b = false ->
  num_lt a b = negb (num_ge a b).
Proof.
  unfold num_is_nan, num_lt, num_ge, num_cmp.
  destruct (num_value a), (num_value b); try done. intros _ _.
  by destruct (xnum_cmp _ _).
Qed.

Lemma num_ge_total (a b : num) :
  num_is_nan a = false -> num_is_nan b = false ->
  num_ge a b = false -> num_ge b a = true.
Proof.
  unfold num_is_nan, num_ge, num_cmp.
  destruct (num_value a) as [x|], (num_value b) as [y|]; try done. intros _ _.
  rewrite (xnum_cmp_antisym x y). by destruct (xnum_cmp x y).
Qed.


Lemma num_ge_trans (a b c : num) :
  num_ge a b = true -> num_ge b c = true -> num_ge a c = true.
Proof.
  unfold num_ge, num_cmp.
  destruct (num_value a) as [x|], (num_value b) as [y|],
    (num_value c) as [z|]; try done.
  pose proof (xnum_cmp_trans z y x) as T.
  rewrite (xnum_cmp_antisym x y), (xnum_cmp_antisym y z),
    (xnum_cmp_antisym x z) in T.
  destruct (xnum_cmp x y), (xnum_cmp y z), (xnum_cmp x z); try done;
    cbn in T; intros _ _; exfalso; by apply T.
Qed.

Lemma num_ge_not_nan (a b : num) :
  num_ge a b = true -> num_is_nan a = false /\ num_is_nan b = false.
Proof.
  unfold num_is_nan, num_ge, num_cmp.
  by destruct (num_value a), (num_value b).
Qed.

Lemma num_lt_true_ge (a b : num) : num_lt a b = true -> num_ge b a = true.
Proof.
  unfold num_lt, num_ge, num_cmp.
  destruct (num_value a) as [x|], (num_value b) as [y|]; try done.
  rewrite (xnum_cmp_antisym x y). by destruct (xnum_cmp x y).
Qed.

(** ** Sorting *)

Section SortingFacts.

Context {A : Type}.
Variable key : A -> num.

Lemma insert_by_Permutation (x : A) (l : list A) :
  insert_by key x l ≡ₚ x :: l.
Proof.
  induction l as [|y l IH]; cbn; [done|].
  destruct (num_lt (key y) (key x)); [|done].
  rewrite IH. apply Permutation_swap.
Qed.

Lemma stable_sort_Permutation (l : list A) : stable_sort key l ≡ₚ l.
Proof.
  induction l as [|x l IH]; [done|].
  change (stable_sort key (x :: l)) with (insert_by key x (stable_sort key l)).
  by rewrite insert_by_Permutation, IH.
Qed.

Lemma insert_by_sorted (x : A) (l : list A) :
  ordered key x -> Forall (ordered key) l ->
  StronglySorted (key_le key) l ->
  StronglySorted (key_le key) (insert_by key x l).
Proof.
  intros Ox Ol S. induction S as [|y l S IH F]; cbn.
  - by repeat constructor.
  - apply Forall_cons in Ol as [Oy Ol].
    destruct (num_lt (key y) (key x)) eqn:L.
    + constructor; [by apply IH|].
      rewrite insert_by_Permutation. constructor; [|done].
      by apply num_lt_true_ge.
    + rewrite num_lt_ge in L by done. apply negb_false_iff in L.
      constructor; [by constructor|]. constructor; [exact L|].
      eapply Forall_impl; [exact F|]. intros z Z.
      unfold key_le in *. by eapply num_ge_trans.
Qed.

Lemma stable_sort_sorted (l : list A) :
  Forall (ordered key) l -> StronglySorted (key_le key) (stable_sort key l).
Proof.
  induction 1 as [|x l Ox Ol IH]; [constructor|].
  change (stable_sort key (x :: l)) with (insert_by key x (stable_sort key l)).
  apply insert_by_sorted; [done| |done].
  by rewrite stable_sort_Permutation.
Qed.

Lemma StronglySorted_rev (l : list A) :
  StronglySorted (key_le key) l -> StronglySorted (key_ge key) (rev l).
Proof.
  induction 1 as [|x l S IH F]; cbn; [constructor|].
  apply StronglySorted_app_2; [|done|by repeat constructor].
  intros a b Ha ->%list_elem_of_singleton.
  rewrite Forall_forall in F. apply F.
  by apply list_elem_of_In, in_rev, list_elem_of_In.
Qed.

Lemma sorted_reverse_Permutation (l : list A) : sorted_reverse key l ≡ₚ l.
Proof.
  unfold sorted_reverse.
  by rewrite <- Permutation_rev, stable_sort_Permutation, <- Permutation_rev.
Qed.

Lemma sorted_reverse_sorted (l : list A) :
  Forall (ordered key) l -> StronglySorted (key_ge key) (sorted_reverse key l).
Proof.
  intros O. apply StronglySorted_rev, stable_sort_sorted.
  by rewrite <- Permutation_rev.
Qed.

Lemma StronglySorted_take (R : relation A) (n : nat) (l : list A) :
  StronglySorted R l -> StronglySorted R (take n l).
Proof.
  intros S. revert n. induction S as [|x l S IH F]; intros [|n]; cbn;
    try constructor; [apply IH|].
  eapply Forall_forall. intros y Y. rewrite Forall_forall in F. apply F.
  apply elem_of_take in Y as (i & Y & _). by eapply list_elem_of_lookup_2.
Qed.

Lemma StronglySorted_lookup (R : relation A) (l : list A) (i j : nat)
    (x y : A) :
  StronglySorted R l -> (i < j)%nat ->
  l !! i = Some x -> l !! j = Some y -> R x y.
Proof.
  intros S. revert i j. induction S as [|z l S IH F]; intros i j L; [done|].
  destruct j as [|j]; [lia|]. destruct i as [|i]; cbn.
  - intros [= ->] Y. rewrite Forall_forall in F. apply F.
    by eapply list_elem_of_lookup_2.
  - apply IH. lia.
Qed.

End SortingFacts.

Lemma top_descending {A : Type} (key : A -> num) (l : list A) :
  Forall (fun x => num_is_nan (key x) = false) l ->
  descending key (take 10 (sorted_reverse key l)).
Proof.
  intros O i j x y. apply (StronglySorted_lookup (key_ge key)).
  by apply StronglySorted_take, sorted_reverse_sorted.
Qed.

Lemma top_length {A : Type} (key : A -> num) (l : list A) :
  List.length (take 10 (sorted_reverse key l)) = Nat.min 10 (List.length l).
Proof. by rewrite length_take, sorted_reverse_Permutation. Qed.

(** ** Classes of binary64 values *)

Lemma SFcompare_refl (x : spec_float) :
  SFcompare x x = match x with S754_nan => None | _ => Some Eq end.
Proof.
  destruct x as [s|s| |s m e]; cbn; try done; try (by destruct s).
  rewrite Z.compare_refl.
  change (Pos.compare_cont Eq m m) with (Pos.compare m m).
  rewrite Pos.compare_refl. by destruct s.
Qed.

Lemma is_nan_spec (x : float) :
  is_nan x = match Prim2SF x with S754_nan => true | _ => false end.
Proof.
  unfold is_nan. rewrite FloatAxioms.eqb_spec. unfold SFeqb.
  rewrite SFcompare_refl. by destruct (Prim2SF x).
Qed.

Lemma is_infinity_spec (x : float) :
  is_infinity x = match Prim2SF x with S754_infinity _ => true | _ => false end.
Proof.
  unfold is_infinity. rewrite FloatAxioms.eqb_spec, abs_spec.
  change (Prim2SF infinity) with (S754_infinity false).
  by destruct (Prim2SF x) as [s|[]| |s m e].
Qed.

Lemma is_zero_spec (x : float) :
  (x =? 0)%float = match Prim2SF x with S754_zero _ => true | _ => false end.
Proof.
  rewrite FloatAxioms.eqb_spec.
  change (Prim2SF 0) with (S754_zero false).
  by destruct (Prim2SF x) as [s|[]| |[] m e].
Qed.

Lemma is_finite_spec (x : float) :
  is_finite x = match Prim2SF x with
                | S754_zero _ | S754_finite _ _ _ => true
                | _ => false
                end.
Proof.
  unfold is_finite. rewrite is_nan_spec, is_infinity_spec.
  by destruct (Prim2SF x).
Qed.

Lemma iter_pos_invariant {T : Type} (P : T -> Prop) (f : T -> T) :
  (forall x, P x -> P (f x)) ->
  forall (n : positive) (x : T), P x -> P (iter_pos f n x).
Proof.
  intros Hf. induction n as [n IH|n IH|]; intros x Px; cbn; auto.
Qed.

Lemma shr_1_nonneg (mrs : shr_record) :
  0 <= shr_m mrs -> 0 <= shr_m (shr_1 mrs).
Proof. destruct mrs as [[|[p|p|]|p] r s]; cbn; lia. Qed.

Lemma shr_fexp_nonneg (m e : Z) (l : location) :
  0 <= m -> 0 <= shr_m (shr_fexp prec emax m e l).1.
Proof.
  intros M. unfold shr_fexp, shr.
  assert (0 <= shr_m (shr_record_of_loc m l)) as R
    by (by destruct l as [|[]]).
  destruct (fexp prec emax (Zdigits2 m + e) - e) as [|n|n]; cbn; try done.
  by apply (iter_pos_invariant (fun r => 0 <= shr_m r)), R; apply shr_1_nonneg.
Qed.

Lemma round_nearest_even_nonneg (m : Z) (l : location) :
  0 <= m -> 0 <= round_nearest_even m l.
Proof.
  intros M. destruct l as [|[]]; cbn; try lia. destruct (Z.even m); lia.
Qed.

Lemma binary_round_aux_signed (s : bool) (m e : Z) (l : location) :
  0 <= m -> signed s (binary_round_aux prec emax s m e l).
Proof.
  intros M. unfold binary_round_aux.
  pose proof (shr_fexp_nonneg m e l M) as N1.
  destruct (shr_fexp prec emax m e l) as [mrs' e'].
  pose proof (shr_fexp_nonneg _ e' loc_Exact
                (round_nearest_even_nonneg _ (loc_of_shr_record mrs') N1))
    as N2.
  destruct (shr_fexp prec emax _ e' loc_Exact) as [mrs'' e''].
  cbn in N2. destruct (shr_m mrs'') as [|p|p]; cbn; [done| |lia].
  by destruct (_ <=? _).
Qed.

Lemma binary_round_signed (s : bool) (m : positive) (e : Z) :
  signed s (binary_round prec emax s m e).
Proof.
  unfold binary_round. destruct (shl_align _ _ _) as [mz ez].
  by apply binary_round_aux_signed.
Qed.



Lemma binary_normalize_signed (m e : Z) :
  0 <= m -> signed false (binary_normalize prec emax m e false).
Proof.
  destruct m as [|p|p]; cbn; [done| |lia]. intros _. apply binary_round_signed.
Qed.


Lemma SFmul_self (x : spec_float) : not_negative (SFmul prec emax x x).
Proof.
  destruct x as [s|s| |s m e]; cbn; try done; try (by destruct s).
  pose proof (binary_round_aux_signed (xorb s s) (Z.pos (m * m)) (e + e)
                loc_Exact ltac:(lia)) as S.
  destruct s; cbn in *;
    by destruct (binary_round_aux prec emax false _ _ _).
Qed.


Lemma SFadd_not_negative (x y : spec_float) :
  not_negative x -> not_negative y -> not_negative (SFadd prec emax x y).
Proof.
  destruct x as [sx|sx| |sx mx ex], y as [sy|sy| |sy my ey]; cbn; try done;
    try (by destruct sx, sy).
  intros -> ->. cbn.
  pose proof (binary_normalize_signed
                (Z.pos (shl_align mx ex (Z.min ex ey)).1
                 + Z.pos (shl_align my ey (Z.min ex ey)).1)
                (Z.min ex ey) ltac:(lia)) as S.
  by destruct (binary_normalize _ _ _ _ _).
Qed.




Lemma div_eucl_nonneg (a : Z) (b : positive) :
  0 <= a -> 0 <= (Z.div_eucl a (Z.pos b)).1.
Proof.
  intros A. change ((Z.div_eucl a (Z.pos b)).1) with (a / Z.pos b).
  apply Z.div_pos; lia.
Qed.

Lemma SFdiv_core_nonneg (m1 m2 : positive) (e1 e2 : Z) :
  0 <= (SFdiv_core_binary prec emax (Z.pos m1) e1 (Z.pos m2) e2).1.1.
Proof.
  unfold SFdiv_core_binary.
  set (s := e1 - e2 - _).
  set (m' := match s with Z.pos _ => _ | 0 => _ | Z.neg _ => _ end).
  assert (0 <= m') as M.
  { subst m'. destruct s; [lia| |lia]. apply Z.shiftl_nonneg. lia. }
  pose proof (div_eucl_nonneg m' m2 M).
  by destruct (Z.div_eucl m' (Z.pos m2)).
Qed.

Lemma SFdiv_not_negative (x y : spec_float) :
  not_negative x -> signed false y -> not_negative (SFdiv prec emax x y).
Proof.
  destruct x as [sx|sx| |sx mx ex], y as [sy|sy| |sy my ey]; cbn; try done;
    try (by intros -> ->); try (by intros _ ->).
  intros -> ->. cbn.
  pose proof (SFdiv_core_nonneg mx my ex ey) as Q.
  destruct (SFdiv_core_binary _ _ _ _ _ _) as [[mz ez] lz]. cbn in Q.
  pose proof (binary_round_aux_signed false mz ez lz Q).
  by destruct (binary_round_aux _ _ _ _ _ _).
Qed.












Lemma of_nat_signed (n : nat) : signed false (Prim2SF (PyFloat.of_nat n)).
Proof.
  unfold PyFloat.of_nat. rewrite of_uint63_spec.
  apply binary_normalize_signed. apply Uint63.to_Z_bounded.
Qed.








(** ** Squares *)

Lemma SFeqb_one (m : positive) (e : Z) :
  SFeqb (S754_finite false m e) (S754_finite false 4503599627370496 (-52))
  = true ->
  m = 4503599627370496%positive /\ e = -52.
Proof.
  unfold SFeqb. cbn [SFcompare].
  destruct (e ?= -52) eqn:Ce; [|discriminate..].
  destruct (Pos.compare_cont Eq m 4503599627370496) eqn:Cm; [|discriminate..].
  intros _. split; [exact (Pos.compare_eq _ _ Cm)|exact (Z.compare_eq _ _ Ce)].
Qed.

(** [x ** 2] is the float product [x * x], or an [OverflowError] when that
    product of a finite [x] is infinite. *)
Lemma pow2_spec (d : float) :
  PyFloat.pow2 d = if sq_overflows d then Raise OverflowError
                   else Ret (d * d)%float.
Proof.
  unfold PyFloat.pow2, sq_overflows.
  rewrite is_nan_spec, is_finite_spec, (is_infinity_spec d), is_zero_spec.
  destruct (Prim2SF d) as [s|s| |s m e] eqn:E.
  - rewrite is_infinity_spec, FloatAxioms.mul_spec, E. cbn.
    f_equal. apply Prim2SF_inj. rewrite FloatAxioms.mul_spec, E. by destruct s.
  - cbn. f_equal. apply Prim2SF_inj.
    rewrite abs_spec, FloatAxioms.mul_spec, E. by destruct s.
  - cbn. f_equal. apply Prim2SF_inj. by rewrite FloatAxioms.mul_spec, E.
  - rewrite FloatAxioms.eqb_spec, abs_spec, E.
    change (Prim2SF 1) with (S754_finite false 4503599627370496 (-52)).
    cbn [SFabs andb].
    assert ((abs d * abs d)%float = (d * d)%float) as ->.
    { apply Prim2SF_inj. rewrite !FloatAxioms.mul_spec, abs_spec, E.
      by destruct s. }
    destruct (SFeqb _ _) eqn:One; [|done].
    apply SFeqb_one in One as [-> ->].
    assert (Prim2SF (d * d) = Prim2SF 1) as P
      by (rewrite FloatAxioms.mul_spec, E; by destruct s).
    rewrite is_infinity_spec, P. cbn. f_equal. symmetry. by apply Prim2SF_inj.
Qed.

Lemma mapM_pow2 (a : float) (vs : list float) :
  mapM (fun x => PyFloat.pow2 (x - a)) vs =
    if existsb (fun x => sq_overflows (x - a)) vs then Raise OverflowError
    else Ret ((fun x => (x - a) * (x - a))%float <$> vs).
Proof.
  induction vs as [|v vs IH]; cbn; [done|].
  rewrite pow2_spec. destruct (sq_overflows (v - a)); cbn; [done|].
  rewrite IH. by destruct (existsb _ vs).
Qed.

(** ** The square root of the variance *)

Lemma ltb_zero_not_negative (v : float) :
  not_negative (Prim2SF v) -> (v <? 0)%float = false.
Proof.
  rewrite FloatAxioms.ltb_spec. change (Prim2SF 0) with (S754_zero false).
  destruct (Prim2SF v) as [s|s| |s m e]; cbn; try done; by intros ->.
Qed.


Lemma sum_from_invariant (P : spec_float -> Prop) (xs : list float)
    (acc : float) :
  (forall a x, P (Prim2SF a) -> x ∈ xs -> P (Prim2SF (a + x)%float)) ->
  P (Prim2SF acc) -> P (Prim2SF (fold_left PrimFloat.add xs acc)).
Proof.
  revert acc. induction xs as [|x xs IH]; intros acc H Pa; cbn; [done|].
  apply IH; [intros; apply H; [done|by right]|]. apply H; [done|by left].
Qed.

Lemma sum_not_negative (xs : list float) :
  Forall (fun x => not_negative (Prim2SF x)) xs ->
  not_negative (Prim2SF (PyFloat.sum xs)).
Proof.
  intros F. apply (sum_from_invariant not_negative); [|done].
  intros a x Pa X. rewrite FloatAxioms.add_spec.
  apply SFadd_not_negative; [done|]. rewrite Forall_forall in F. by apply F.
Qed.



Lemma math_sqrt_variance (sq : list float) (n : nat) :
  Forall (fun q => not_negative (Prim2SF q)) sq ->
  PyFloat.math_sqrt (PyFloat.sum sq / PyFloat.of_nat n) =
    Ret (PrimFloat.sqrt (PyFloat.sum sq / PyFloat.of_nat n)).
Proof.
  intros F. unfold PyFloat.math_sqrt.
  rewrite ltb_zero_not_negative; [done|].
  rewrite FloatAxioms.div_spec.
  apply SFdiv_not_negative; [by apply sum_not_negative|apply of_nat_signed].
Qed.

(** ** The order of floats other than NaN *)





(** ** Minimum and maximum *)



(** ** Statistics of a non-empty sequence *)

Lemma compute_statistics_cons (v0 : float) (rest : list float) :
  compute_statistics (Some <$> v0 :: rest) =
    if Nat.eqb (List.length (v0 :: rest)) 1 then
      Ret {| average := PyFloat (mean (v0 :: rest));
             min_value := PyFloat.min_from v0 rest;
             max_value := PyFloat.max_from v0 rest;
             count := Z.of_nat (List.length (v0 :: rest));
             std_dev := 0 |}
    else if deviation_overflows (v0 :: rest) then Raise OverflowError
    else
      Ret {| average := PyFloat (mean (v0 :: rest));
             min_value := PyFloat.min_from v0 rest;
             max_value := PyFloat.max_from v0 rest;
             count := Z.of_nat (List.length (v0 :: rest));
             std_dev := population_std_dev (v0 :: rest) |}.
Proof.
  unfold compute_statistics. rewrite valid_values_Some.
  cbv zeta. fold (mean (v0 :: rest)).
  destruct (Nat.eqb (List.length (v0 :: rest)) 1); [done|].
  rewrite mapM_pow2. fold (deviation_overflows (v0 :: rest)).
  destruct (deviation_overflows (v0 :: rest)); [done|].
  fold (squared_deviations (v0 :: rest)). cbn [bind].
  rewrite math_sqrt_variance; [done|].
  unfold squared_deviations. apply Forall_fmap, Forall_forall. intros x _.
  cbn. rewrite FloatAxioms.mul_spec. apply SFmul_self.
Qed.







(** C8, amended: for every mapping of GroupKey to Statistics, each of the
    two top lists has length [min(10, number of groups)] and consists of
    entries of the mapping; the list by average is in descending order of the
    averages when no average is a NaN, and the list by std_dev is in
    descending order of the std_devs when no std_dev is a NaN. *)
Theorem top_lists_sorted (stats : list (GroupKey * Statistics)) :
  List.length (top_by_avg stats) = Nat.min 10 (List.length stats)
  /\ List.length (top_by_stddev stats) = Nat.min 10 (List.length stats)
  /\ (exists rest, top_by_avg stats ++ rest ≡ₚ stats)
  /\ (exists rest, top_by_stddev stats ++ rest ≡ₚ stats)
  /\ (Forall (fun x => num_is_nan (average x.2) = false) stats ->
      descending (fun x => average x.2) (top_by_avg stats))
  /\ (Forall (fun x => is_nan (std_dev x.2) = false) stats ->
      descending (fun x => PyFloat (std_dev x.2)) (top_by_stddev stats)).
Proof.
  unfold top_by_avg, top_by_stddev.
  split; [apply top_length|]. split; [apply top_length|].
  split; [eexists; by rewrite take_drop, sorted_reverse_Permutation|].
  split; [eexists; by rewrite take_drop, sorted_reverse_Permutation|].
  split; [apply top_descending|].
  intros F. apply top_descending.
  eapply Forall_impl; [exact F|]. intros x X. cbn in X.
  by rewrite <- is_nan_value.
Qed.

(** C8 as stated fails: with a NaN among the averages the list by average
    is not in descending order, and neither is it in the opposite order. *)
Lemma top_by_avg_nan :
  compute_stats
    [((Some "dev_1", Some "site_1", Some "temp"), [Some nan]);
     ((Some "dev_2", Some "site_1", Some "temp"), [Some 1%float])]
  = Ret nan_stats
  /\ ~ descending (fun x => average x.2) (top_by_avg nan_stats)
  /\ ~ descending (fun x => average x.2) (rev (top_by_avg nan_stats)).
Proof.
  split; [vm_compute; reflexivity|].
  split; intros D;
    specialize (D 0%nat 1%nat _ _ ltac:(lia) eq_refl eq_refl);
    vm_compute in D; discriminate.
Qed.

(** ** The command line *)

Lemma parse_date_option_spec (strptime : string -> string -> option datetime)
    (name : string) (o : pystr) :
  parse_date_option strptime name o =
    Ret match o with
        | Some s =>
            if truthy o then
              match parse_datetime strptime s with
              | Ret dt => Parsed (Some dt)
              | Raise _ =>
                  ParserError
                    ("Invalid " +:+ name +:+ " format: "
                     +:+ "Unable to parse date string: " +:+ s)
              end
            else Parsed None
        | None => Parsed None
        end.
Proof.
  unfold parse_date_option. destruct o as [s|]; [|done].
  destruct (truthy (Some s)); [|done].
  destruct (parse_datetime strptime s) as [dt|e] eqn:P; [done|].
  by rewrite (parse_datetime_raises _ _ _ P).
Qed.

Lemma date_ok_dec (strptime : string -> string -> option datetime)
    (o : pystr) :
  date_ok strptime o \/ ~ date_ok strptime o.
Proof.
  unfold date_ok. destruct (truthy o) eqn:T; [|by do 2 left].
  destruct o as [s|]; [|done].
  destruct (parse_datetime strptime s) as [dt|e] eqn:P.
  - left. right. by exists s, dt.
  - right. intros [?|(? & ? & [= <-] & ?)]; congruence.
Qed.

Lemma parse_date_option_ok (strptime : string -> string -> option datetime)
    (name : string) (o : pystr) :
  date_ok strptime o ->
  exists d, parse_date_option strptime name o = Ret (Parsed d)
    /\ aware d /\ given d = truthy o.
Proof.
  rewrite parse_date_option_spec. intros [T|(s & dt & -> & P)].
  - rewrite T. exists None. by destruct o.
  - rewrite P. destruct (truthy (Some s)).
    + exists (Some dt). split; [done|]. split; [|done].
      intros ? [= <-]. by eapply parse_datetime_aware.
    + by exists None.
Qed.

Lemma parse_date_option_bad (strptime : string -> string -> option datetime)
    (name : string) (o : pystr) :
  ~ date_ok strptime o ->
  exists s, o = Some s
    /\ parse_date_option strptime name o =
         Ret (ParserError
                ("Invalid " +:+ name +:+ " format: "
                 +:+ "Unable to parse date string: " +:+ s)).
Proof.
  rewrite parse_date_option_spec. unfold date_ok. intros B.
  destruct o as [s|]; [|destruct B; by left]. exists s. split; [done|].
  destruct (truthy (Some s)); [|destruct B; by left].
  destruct (parse_datetime strptime s) as [dt|e] eqn:P; [|done].
  destruct B. right. by exists s, dt.
Qed.


(** X1: the criteria that [parse_arguments] returns hold the site, device
    and metric options as they were given, and for each date option that is
    neither absent nor empty a [datetime] that carries a timezone; the other
    date options count as not given. *)
Theorem parse_arguments_aware (strptime : string -> string -> option datetime)
    (ns : Namespace.t) (args : Args) :
  parse_arguments strptime ns = Ret (Parsed args) ->
  aware (start_date args) /\ aware (end_date args)
  /\ site args = Namespace.site ns
  /\ device args = Namespace.device ns
  /\ metric args = Namespace.metric ns
  /\ given (start_date args) = truthy (Namespace.start_date ns)
  /\ given (end_date args) = truthy (Namespace.end_date ns).
Proof.
  unfold parse_arguments.
  destruct (date_ok_dec strptime (Namespace.start_date ns)) as [Os|Bs].
  2:{ by destruct (parse_date_option_bad strptime "start-date" _ Bs)
        as (s & _ & ->). }
  destruct (parse_date_option_ok strptime "start-date" _ Os)
    as (sd & -> & As & Gs). cbn [bind].
  destruct (date_ok_dec strptime (Namespace.end_date ns)) as [Oe|Be].
  2:{ by destruct (parse_date_option_bad strptime "end-date" _ Be)
        as (s & _ & ->). }
  destruct (parse_date_option_ok strptime "end-date" _ Oe)
    as (ed & -> & Ae & Ge). cbn [bind].
  by intros [= <-].
Qed.

Lemma parse_arguments_aware_witness :
  parse_arguments Builtins.strptime from_date =
    Ret (Parsed {| site := None; device := None; metric := None;
                   start_date :=
                     Some (mkDatetime 2025 1 1 0 0 0 0 (Some timezone_utc));
                   end_date := None |})
  /\ aware (Some (mkDatetime 2025 1 1 0 0 0 0 (Some timezone_utc))).
Proof.
  assert (parse_arguments Builtins.strptime from_date =
            Ret (Parsed {| site := None; device := None; metric := None;
                           start_date :=
                             Some (mkDatetime 2025 1 1 0 0 0 0
                                     (Some timezone_utc));
                           end_date := None |})) as E
    by (vm_compute; reflexivity).
  split; [exact E|].
  exact (proj1 (parse_arguments_aware _ _ _ E)).
Defined.

(** X2: [parse_arguments] raises nothing; it returns criteria exactly when
    each date option is absent, empty or accepted by [parse_datetime], and
    otherwise exits with the error of the first date option that is not,
    the start date before the end date. *)
Theorem parse_arguments_outcome
    (strptime : string -> string -> option datetime) (ns : Namespace.t) :
  exists p, parse_arguments strptime ns = Ret p
    /\ ((exists args, p = Parsed args)
        <-> date_ok strptime (Namespace.start_date ns)
            /\ date_ok strptime (Namespace.end_date ns))
    /\ (forall s, Namespace.start_date ns = Some s ->
          ~ date_ok strptime (Some s) ->
          p = ParserError
                ("Invalid start-date format: Unable to parse date string: "
                 +:+ s))
    /\ (forall s, Namespace.end_date ns = Some s ->
          date_ok strptime (Namespace.start_date ns) ->
          ~ date_ok strptime (Some s) ->
          p = ParserError
                ("Invalid end-date format: Unable to parse date string: "
                 +:+ s)).
Proof.
  unfold parse_arguments.
  destruct (date_ok_dec strptime (Namespace.start_date ns)) as [Os|Bs].
  2:{ destruct (parse_date_option_bad strptime "start-date" _ Bs)
        as (s & E & ->).
      eexists. split; [done|]. split; [|split].
      - split; [by intros [? ?]|by intros [? _]].
      - intros s' E' _. rewrite E in E'. by injection E' as <-.
      - by intros. }
  destruct (parse_date_option_ok strptime "start-date" _ Os)
    as (sd & -> & _). cbn [bind].
  destruct (date_ok_dec strptime (Namespace.end_date ns)) as [Oe|Be].
  2:{ destruct (parse_date_option_bad strptime "end-date" _ Be)
        as (s & E & ->).
      eexists. split; [done|]. split; [|split].
      - split; [by intros [? ?]|by intros [_ ?]].
      - intros s' E' B. by rewrite <- E' in B.
      - intros s' E' _ _. rewrite E in E'. by injection E' as <-. }
  destruct (parse_date_option_ok strptime "end-date" _ Oe)
    as (ed & -> & _). cbn [bind].
  eexists. split; [done|]. split; [|split].
  - split; [done|by eexists].
  - intros s E B. by rewrite <- E in B.
  - intros s E _ B. by rewrite <- E in B.
Qed.

(** ** The groups of a run *)

Section Groups.

Variable strptime : string -> string -> option datetime.
Variable float_of_str : string -> option float.
Variable args : Args.

Lemma process_row_reading (aggs aggs' : list (GroupKey * list (option float)))
    (row : Row) :
  process_row strptime float_of_str args aggs row = Ret aggs' ->
  aggs' = match reading strptime float_of_str args row with
          | Some (k, f) => append_value k (Some f) aggs
          | None => aggs
          end.
Proof.
  unfold process_row, reading, getitem.
  destruct (should_include strptime row args) as [[|]|] eqn:I; cbn;
    [|by intros [= <-]|done].
  destruct (row !! "device") as [d|]; cbn; [|done].
  destruct (row !! "site") as [s|]; cbn; [|done].
  destruct (row !! "metric") as [m|]; cbn; [|done].
  destruct (row !! "value") as [raw|]; cbn; [|done].
  destruct raw as [text|]; cbn; [|by intros [= <-]].
  destruct (String.eqb_spec (strip text) "") as [E|E].
  - rewrite decide_True by done. by intros [= <-].
  - rewrite decide_False by done. unfold call_float.
    destruct (float_of_str (strip text)) as [f|]; cbn; by intros [= <-].
Qed.

Lemma values_of_append (key k : GroupKey) (v : option float)
    (aggs : list (GroupKey * list (option float))) :
  values_of key (append_value k v aggs) =
    values_of key aggs ++ (if decide (k = key) then [v] else []).
Proof.
  induction aggs as [|[k0 vs0] aggs IH]; cbn.
  - destruct (decide (k = key)); done.
  - destruct (decide (k0 = k)) as [->|N]; cbn.
    + destruct (decide (k = key)); [done|]. by rewrite app_nil_r.
    + destruct (decide (k0 = key)) as [->|N'].
      * rewrite decide_False by done. by rewrite app_nil_r.
      * exact IH.
Qed.

Lemma keys_append (k : GroupKey) (v : option float)
    (aggs : list (GroupKey * list (option float))) :
  (append_value k v aggs).*1 =
    if decide (k ∈ aggs.*1) then aggs.*1 else aggs.*1 ++ [k].
Proof.
  induction aggs as [|[k0 vs0] aggs IH]; cbn.
  - rewrite decide_False; [done|]. apply not_elem_of_nil.
  - destruct (decide (k0 = k)) as [->|N]; cbn.
    + rewrite decide_True; [done|]. by left.
    + rewrite IH. destruct (decide (k ∈ aggs.*1)) as [E|E].
      * rewrite decide_True; [done|]. by right.
      * rewrite decide_False; [done|].
        intros [?|?]%elem_of_cons; congruence.
Qed.

Lemma append_value_NoDup (k : GroupKey) (v : option float)
    (aggs : list (GroupKey * list (option float))) :
  NoDup aggs.*1 -> NoDup (append_value k v aggs).*1.
Proof.
  intros N. rewrite keys_append. destruct (decide (k ∈ aggs.*1)); [done|].
  apply NoDup_app. split; [done|]. split; [|apply NoDup_singleton].
  intros x X ->%list_elem_of_singleton. done.
Qed.

Lemma values_of_elem (key : GroupKey) (values : list (option float))
    (aggs : list (GroupKey * list (option float))) :
  NoDup aggs.*1 -> (key, values) ∈ aggs -> values_of key aggs = values.
Proof.
  induction aggs as [|[k0 vs0] aggs IH]; cbn.
  - by intros _ ?%elem_of_nil.
  - intros [N1 N2]%NoDup_cons [E|E]%elem_of_cons.
    + injection E as <- <-. by rewrite decide_True.
    + rewrite decide_False; [by apply IH|]. intros ->. apply N1.
      apply list_elem_of_fmap. by exists (key, values).
Qed.

Lemma values_of_absent (key : GroupKey)
    (aggs : list (GroupKey * list (option float))) :
  key ∉ aggs.*1 -> values_of key aggs = [].
Proof.
  induction aggs as [|[k0 vs0] aggs IH]; cbn; [done|].
  intros N. rewrite decide_False.
  - apply IH. intros ?. apply N. by right.
  - intros ->. apply N. by left.
Qed.

Lemma readings_of_cons (key : GroupKey) (row : Row) (rows : list Row) :
  readings_of strptime float_of_str args key (row :: rows) =
    match reading strptime float_of_str args row with
    | Some (k, f) => if decide (k = key) then [f] else []
    | None => []
    end ++ readings_of strptime float_of_str args key rows.
Proof.
  unfold readings_of. cbn.
  destruct (reading strptime float_of_str args row) as [[k f]|]; [|done].
  destruct (decide (k = key)) as [E|E].
  - by rewrite filter_cons_True.
  - by rewrite filter_cons_False.
Qed.

Lemma aggregate_from_values (rows : list Row)
    (aggs aggs' : list (GroupKey * list (option float))) (key : GroupKey) :
  aggregate_from strptime float_of_str args aggs rows = Ret aggs' ->
  values_of key aggs' =
    values_of key aggs
    ++ (Some <$> readings_of strptime float_of_str args key rows).
Proof.
  revert aggs. induction rows as [|row rows IH]; intros aggs.
  - intros [= <-]. by rewrite app_nil_r.
  - rewrite readings_of_cons. cbn [aggregate_from].
    destruct (process_row strptime float_of_str args aggs row) as [aggs1|]
      eqn:P; cbn [bind]; [|done].
    intros A. rewrite (IH _ A), fmap_app, app_assoc.
    f_equal. apply process_row_reading in P as ->.
    destruct (reading strptime float_of_str args row) as [[k f]|];
      [|by rewrite app_nil_r].
    rewrite values_of_append. by destruct (decide (k = key)).
Qed.

Lemma aggregate_from_NoDup (rows : list Row)
    (aggs aggs' : list (GroupKey * list (option float))) :
  NoDup aggs.*1 ->
  aggregate_from strptime float_of_str args aggs rows = Ret aggs' ->
  NoDup aggs'.*1.
Proof.
  revert aggs. induction rows as [|row rows IH]; intros aggs N; cbn.
  - by intros [= <-].
  - destruct (process_row strptime float_of_str args aggs row) as [aggs1|]
      eqn:P; cbn; [|done].
    apply IH. apply process_row_reading in P as ->.
    destruct (reading strptime float_of_str args row) as [[k f]|]; [|done].
    by apply append_value_NoDup.
Qed.

Lemma stored_append (k : GroupKey) (v : option float)
    (aggs : list (GroupKey * list (option float))) :
  stored (append_value k v aggs) = S (stored aggs).
Proof.
  unfold stored. induction aggs as [|[k0 vs0] aggs IH]; cbn; [done|].
  destruct (decide (k0 = k)); cbn.
  - rewrite length_app. cbn. lia.
  - rewrite IH. lia.
Qed.

Lemma aggregate_from_stored (rows : list Row)
    (aggs aggs' : list (GroupKey * list (option float))) :
  aggregate_from strptime float_of_str args aggs rows = Ret aggs' ->
  stored aggs' =
    (stored aggs
     + List.length (omap (reading strptime float_of_str args) rows))%nat.
Proof.
  revert aggs. induction rows as [|row rows IH]; intros aggs; cbn.
  - intros [= <-]. lia.
  - destruct (process_row strptime float_of_str args aggs row) as [aggs1|]
      eqn:P; cbn; [|done].
    intros A. rewrite (IH _ A). apply process_row_reading in P as ->.
    destruct (reading strptime float_of_str args row) as [[k f]|]; cbn;
      [|done].
    rewrite stored_append. lia.
Qed.

Lemma remove_dups_seen (k : GroupKey) (p r : list GroupKey) :
  k ∈ r -> remove_dups (p ++ k :: r) = remove_dups (p ++ r).
Proof.
  intros K. induction p as [|x p IH]; cbn [app remove_dups].
  - by destruct (decide_rel elem_of k r).
  - rewrite IH.
    destruct (decide_rel elem_of x (p ++ k :: r)) as [X|X];
      destruct (decide_rel elem_of x (p ++ r)) as [Y|Y]; try done.
    + destruct Y. apply elem_of_app in X as [X|[->|X]%elem_of_cons];
        apply elem_of_app; auto.
    + destruct X. apply elem_of_app in Y as [Y|Y]; apply elem_of_app;
        [by left|right; by right].
Qed.

Lemma first_seen_seen (k : GroupKey) (l r : list GroupKey) :
  k ∈ l -> first_seen (l ++ k :: r) = first_seen (l ++ r).
Proof.
  intros K. unfold first_seen. rewrite !rev_app_distr. cbn [rev].
  rewrite <- app_assoc. cbn [app]. rewrite remove_dups_seen; [done|].
  by apply list_elem_of_In, in_rev, list_elem_of_In in K.
Qed.

Lemma first_seen_NoDup (l : list GroupKey) : NoDup l -> first_seen l = l.
Proof.
  intros N. unfold first_seen.
  assert (NoDup (rev l)) as N'
    by (by apply NoDup_ListNoDup, NoDup_rev, NoDup_ListNoDup).
  rewrite <- (rev_involutive l) at 2. f_equal.
  induction N' as [|x r X _ IH]; cbn [remove_dups]; [done|].
  destruct (decide_rel elem_of x r); [done|]. by rewrite IH.
Qed.

Lemma aggregate_from_keys (rows : list Row)
    (aggs aggs' : list (GroupKey * list (option float))) :
  NoDup aggs.*1 ->
  aggregate_from strptime float_of_str args aggs rows = Ret aggs' ->
  aggs'.*1 =
    first_seen (aggs.*1 ++ (omap (reading strptime float_of_str args) rows).*1).
Proof.
  revert aggs. induction rows as [|row rows IH]; intros aggs N.
  - intros [= <-]. cbn. rewrite app_nil_r. by rewrite first_seen_NoDup.
  - cbn [aggregate_from omap list_omap].
    destruct (process_row strptime float_of_str args aggs row) as [aggs1|]
      eqn:P; cbn [bind]; [|done].
    apply process_row_reading in P. intros A.
    destruct (reading strptime float_of_str args row) as [[k f]|].
    + subst aggs1. rewrite (IH _ (append_value_NoDup k _ _ N) A).
      rewrite keys_append. cbn [fmap list_fmap fst].
      destruct (decide (k ∈ aggs.*1)) as [K|K].
      * by rewrite first_seen_seen.
      * by rewrite <- app_assoc.
    + subst aggs1. by apply IH.
Qed.

Lemma aggregate_values (rows : list Row)
    (aggs : list (GroupKey * list (option float))) (key : GroupKey)
    (values : list (option float)) :
  aggregate strptime float_of_str args rows = Ret aggs ->
  (key, values) ∈ aggs ->
  values = Some <$> readings_of strptime float_of_str args key rows.
Proof.
  intros A K.
  pose proof (aggregate_from_NoDup rows [] _ NoDup_nil_2 A) as N.
  rewrite <- (values_of_elem _ _ _ N K).
  by rewrite (aggregate_from_values _ _ _ key A).
Qed.

End Groups.

(** X3: for every run that reaches the end of the rows, the values of a
    group are the numbers of the rows that pass the filter, have the columns
    of the group and a value text that [float] accepts, all of them, once
    each and in the order of the rows; and the groups are the keys that have
    such a row. *)
Theorem aggregate_groups (strptime : string -> string -> option datetime)
    (float_of_str : string -> option float) (args : Args) (rows : list Row)
    (aggs : list (GroupKey * list (option float))) :
  aggregate strptime float_of_str args rows = Ret aggs ->
  (forall key values,
     (key, values) ∈ aggs ->
     values = Some <$> readings_of strptime float_of_str args key rows)
  /\ (forall key,
        key ∈ aggs.*1 <->
        readings_of strptime float_of_str args key rows <> []).
Proof.
  intros A.
  pose proof (aggregate_from_NoDup _ _ _ rows [] _ NoDup_nil_2 A) as N.
  assert (forall key, values_of key aggs =
            Some <$> readings_of strptime float_of_str args key rows) as V
    by (intros key; by rewrite (aggregate_from_values _ _ _ _ _ _ key A)).
  assert (Forall (fun kv => kv.2 <> []) aggs) as NE
    by (eapply aggregate_from_nonempty; [|exact A]; constructor).
  split.
  - intros key values K. by eapply aggregate_values.
  - intros key. split.
    + intros ((k & values) & -> & K)%list_elem_of_fmap. cbn. intros E.
      rewrite Forall_forall in NE. apply (NE _ K). cbn.
      rewrite <- (values_of_elem _ _ _ N K), V, E. done.
    + intros R. destruct (decide (key ∈ aggs.*1)) as [|Abs]; [done|].
      apply values_of_absent in Abs. rewrite V in Abs.
      by apply fmap_nil_inv in Abs.
Qed.

Lemma aggregate_groups_witness :
  aggregate Builtins.strptime Builtins.float_of_str no_filter fixture_rows
  = Ret fixture_aggregations
  /\ [Some 10%float; Some 20%float; Some 30%float] =
       Some <$> readings_of Builtins.strptime Builtins.float_of_str no_filter
                  (Some "dev_1", Some "site_1", Some "temp") fixture_rows.
Proof.
  assert (aggregate Builtins.strptime Builtins.float_of_str no_filter
            fixture_rows = Ret fixture_aggregations) as A
    by (vm_compute; reflexivity).
  split; [exact A|].
  apply (proj1 (aggregate_groups _ _ _ _ _ A)). by left.
Defined.

(** X4: for every run that reaches the end of the rows, no two groups have
    the same key, the keys are in the order in which the rows first added
    to them, the groups hold as many values as there are rows that add one,
    and there are at most as many groups as rows. *)
Theorem aggregate_keys (strptime : string -> string -> option datetime)
    (float_of_str : string -> option float) (args : Args) (rows : list Row)
    (aggs : list (GroupKey * list (option float))) :
  aggregate strptime float_of_str args rows = Ret aggs ->
  NoDup aggs.*1
  /\ aggs.*1 = first_seen (omap (reading strptime float_of_str args) rows).*1
  /\ stored aggs = List.length (omap (reading strptime float_of_str args) rows)
  /\ (List.length aggs <= List.length rows)%nat.
Proof.
  intros A.
  pose proof (aggregate_from_NoDup _ _ _ rows [] _ NoDup_nil_2 A) as N.
  pose proof (aggregate_from_stored _ _ _ _ _ _ A) as S.
  assert (Forall (fun kv => kv.2 <> []) aggs) as NE
    by (eapply aggregate_from_nonempty; [|exact A]; constructor).
  split; [done|].
  split; [exact (aggregate_from_keys _ _ _ rows [] _ NoDup_nil_2 A)|].
  split; [exact S|].
  assert (List.length aggs <= stored aggs)%nat as L.
  { clear -NE. unfold stored.
    induction NE as [|[k vs] aggs H _ IH]; cbn; [lia|].
    destruct vs; [done|]. cbn in *. lia. }
  rewrite S in L. cbn in L.
  assert (forall l : list Row,
            List.length (omap (reading strptime float_of_str args) l)
            <= List.length l)%nat as O.
  { induction l as [|row l IH]; cbn; [lia|].
    destruct (reading strptime float_of_str args row); cbn; lia. }
  specialize (O rows). lia.
Qed.

Lemma aggregate_keys_witness :
  aggregate Builtins.strptime Builtins.float_of_str no_filter fixture_rows
  = Ret fixture_aggregations
  /\ NoDup fixture_aggregations.*1
  /\ stored fixture_aggregations = 5%nat.
Proof.
  assert (aggregate Builtins.strptime Builtins.float_of_str no_filter
            fixture_rows = Ret fixture_aggregations) as A
    by (vm_compute; reflexivity).
  split; [exact A|].
  destruct (aggregate_keys _ _ _ _ _ A) as (N & _ & S & _).
  split; [exact N|]. reflexivity.
Defined.

(** ** Exceptions of the loop over the rows *)

Lemma convert_to_float_spec (float_of_str : string -> option float)
    (value_str : pystr) :
  convert_to_float float_of_str value_str =
    Ret match value_str with
        | None => None
        | Some s => if decide (strip s = "") then None
                    else float_of_str (strip s)
        end.
Proof.
  destruct value_str as [s|]; [|done]. unfold convert_to_float.
  destruct (String.eqb_spec (strip s) "") as [E|E].
  - by rewrite decide_True.
  - rewrite decide_False by done. unfold call_float.
    by destruct (float_of_str (strip s)).
Qed.

Section Run.

Variable strptime : string -> string -> option datetime.
Variable float_of_str : string -> option float.
Variable args : Args.

Lemma should_include_record (r : Reading.t) :
  aware (start_date args) -> aware (end_date args) ->
  exists b, should_include strptime (Reading.row r) args = Ret b.
Proof.
  intros As Ae. rewrite should_include_reading.
  destruct (_ && _); [|by eexists].
  destruct (_ || _); [|by eexists].
  destruct (in_range_spec strptime (Reading.time r) args As Ae)
    as (b & -> & _).
  by eexists.
Qed.

Lemma process_row_record (aggs : list (GroupKey * list (option float)))
    (r : Reading.t) :
  aware (start_date args) -> aware (end_date args) ->
  exists aggs',
    process_row strptime float_of_str args aggs (Reading.row r) = Ret aggs'.
Proof.
  intros As Ae. unfold process_row.
  destruct (should_include_record r As Ae) as [b ->]. cbn [bind].
  destruct b; [|by eexists].
  rewrite getitem_device, getitem_site, getitem_metric, getitem_value.
  cbn [bind]. rewrite convert_to_float_spec. cbn [bind].
  destruct (if decide _ then _ else _); by eexists.
Qed.

Lemma aggregate_from_records (aggs : list (GroupKey * list (option float)))
    (rs : list Reading.t) :
  aware (start_date args) -> aware (end_date args) ->
  exists aggs',
    aggregate_from strptime float_of_str args aggs (Reading.row <$> rs)
    = Ret aggs'.
Proof.
  intros As Ae. revert aggs. induction rs as [|r rs IH]; intros aggs; cbn.
  - by eexists.
  - destruct (process_row_record aggs r As Ae) as [aggs1 ->]. cbn. apply IH.
Qed.

Lemma criterion_misses_raises (row : Row) (k : string) (f : pystr) (e : exn) :
  criterion_misses row k f = Raise e -> e = KeyError.
Proof.
  unfold criterion_misses, getitem. destruct (truthy f); [|done].
  destruct (row !! k); cbn; congruence.
Qed.

Lemma lt_aware (a b : datetime) :
  is_Some (tzinfo a) -> is_Some (tzinfo b) ->
  exists c, Datetime.lt a b = Ret c.
Proof.
  intros Ha Hb. destruct (cmp_aware a b Ha Hb) as [c C].
  unfold Datetime.lt, Datetime.of_cmp. rewrite C. by eexists.
Qed.

Lemma gt_aware (a b : datetime) :
  is_Some (tzinfo a) -> is_Some (tzinfo b) ->
  exists c, Datetime.gt a b = Ret c.
Proof.
  intros Ha Hb. destruct (cmp_aware a b Ha Hb) as [c C].
  unfold Datetime.gt, Datetime.of_cmp. rewrite C. by eexists.
Qed.

Lemma should_include_raises (row : Row) (e : exn) :
  aware (start_date args) -> aware (end_date args) ->
  should_include strptime row args = Raise e ->
  e = KeyError \/ e = AttributeError.
Proof.
  intros As Ae. unfold should_include.
  destruct (criterion_misses row "site" (site args)) as [[|]|e1] eqn:C1;
    cbn [bind];
    [done| |intros [= <-]; left; by eapply criterion_misses_raises].
  destruct (criterion_misses row "device" (device args)) as [[|]|e2] eqn:C2;
    cbn [bind];
    [done| |intros [= <-]; left; by eapply criterion_misses_raises].
  destruct (criterion_misses row "metric" (metric args)) as [[|]|e3] eqn:C3;
    cbn [bind];
    [done| |intros [= <-]; left; by eapply criterion_misses_raises].
  destruct (_ || _); [|done].
  unfold getitem. destruct (row !! "time") as [t|]; cbn [bind]; [|done].
  destruct t as [t|]; cbn [bind py_strip]; [|intros [= <-]; by right].
  destruct (parse_datetime strptime (strip t)) as [rt|e4] eqn:P.
  2:{ pose proof (parse_datetime_raises _ _ _ P) as ->. done. }
  pose proof (parse_datetime_aware _ _ _ P) as At. cbn [bind].
  destruct (start_date args) as [sd|].
  - destruct (lt_aware rt sd At (As _ eq_refl)) as [b ->]. cbn.
    destruct b; [done|].
    destruct (end_date args) as [ed|]; [|done].
    destruct (gt_aware rt ed At (Ae _ eq_refl)) as [b ->]. cbn.
    by destruct b.
  - cbn. destruct (end_date args) as [ed|]; [|done].
    destruct (gt_aware rt ed At (Ae _ eq_refl)) as [b ->]. cbn.
    by destruct b.
Qed.

Lemma process_row_raises (aggs : list (GroupKey * list (option float)))
    (row : Row) (e : exn) :
  aware (start_date args) -> aware (end_date args) ->
  process_row strptime float_of_str args aggs row = Raise e ->
  e = KeyError \/ e = AttributeError.
Proof.
  intros As Ae. unfold process_row.
  destruct (should_include strptime row args) as [b|e0] eqn:I; cbn [bind].
  2:{ intros [= <-]. by eapply should_include_raises. }
  destruct b; [|done]. unfold getitem.
  destruct (row !! "device"); cbn [bind]; [|intros [= <-]; by left].
  destruct (row !! "site"); cbn [bind]; [|intros [= <-]; by left].
  destruct (row !! "metric"); cbn [bind]; [|intros [= <-]; by left].
  destruct (row !! "value") as [raw|]; cbn [bind];
    [|intros [= <-]; by left].
  rewrite convert_to_float_spec. cbn [bind].
  destruct raw as [text|]; [|done].
  destruct (decide (strip text = "")); [done|].
  by destruct (float_of_str (strip text)).
Qed.

Lemma aggregate_from_raises (aggs : list (GroupKey * list (option float)))
    (rows : list Row) (e : exn) :
  aware (start_date args) -> aware (end_date args) ->
  aggregate_from strptime float_of_str args aggs rows = Raise e ->
  e = KeyError \/ e = AttributeError.
Proof.
  intros As Ae. revert aggs. induction rows as [|row rows IH]; intros aggs;
    cbn; [done|].
  destruct (process_row strptime float_of_str args aggs row) as [aggs1|e1]
    eqn:P; cbn.
  - apply IH.
  - intros [= <-]. by eapply process_row_raises.
Qed.

End Run.

(** X5: on rows that are records (every column holds text) and with
    criteria whose dates carry a timezone, the loop over the rows raises
    nothing: it reaches the end of the rows and returns the aggregations. *)
Theorem aggregate_records (strptime : string -> string -> option datetime)
    (float_of_str : string -> option float) (args : Args)
    (rs : list Reading.t) :
  aware (start_date args) -> aware (end_date args) ->
  exists aggs,
    aggregate strptime float_of_str args (Reading.row <$> rs) = Ret aggs.
Proof. apply aggregate_from_records. Qed.

Lemma aggregate_records_witness :
  aware (start_date fixture_args) /\ aware (end_date fixture_args)
  /\ exists aggs,
       aggregate Builtins.strptime Builtins.float_of_str fixture_args
         (Reading.row <$> [fixture_row]) = Ret aggs.
Proof.
  assert (aware (start_date fixture_args)) as As
    by (intros dt [= <-]; cbn; eauto).
  assert (aware (end_date fixture_args)) as Ae
    by (intros dt [= <-]; cbn; eauto).
  split; [exact As|]. split; [exact Ae|].
  exact (aggregate_records Builtins.strptime Builtins.float_of_str
           fixture_args [fixture_row] As Ae).
Defined.

(** X6: with criteria whose dates carry a timezone, the only exceptions
    that the loop over the rows raises, on any rows, are the [KeyError] of a
    column that the file does not have and the [AttributeError] of a time
    column that a short line left at [None]. *)
Theorem aggregate_raises (strptime : string -> string -> option datetime)
    (float_of_str : string -> option float) (args : Args) (rows : list Row)
    (e : exn) :
  aware (start_date args) -> aware (end_date args) ->
  aggregate strptime float_of_str args rows = Raise e ->
  e = KeyError \/ e = AttributeError.
Proof. apply aggregate_from_raises. Qed.

Lemma aggregate_raises_witness :
  aware (start_date fixture_args) /\ aware (end_date fixture_args)
  /\ aggregate Builtins.strptime Builtins.float_of_str fixture_args
       [delete "site" (Reading.row fixture_row)] = Raise KeyError
  /\ (KeyError = KeyError \/ KeyError = AttributeError).
Proof.
  assert (aware (start_date fixture_args)) as As
    by (intros dt [= <-]; cbn; eauto).
  assert (aware (end_date fixture_args)) as Ae
    by (intros dt [= <-]; cbn; eauto).
  assert (aggregate Builtins.strptime Builtins.float_of_str fixture_args
            [delete "site" (Reading.row fixture_row)] = Raise KeyError) as R
    by (vm_compute; reflexivity).
  split; [exact As|]. split; [exact Ae|]. split; [exact R|].
  exact (aggregate_raises _ _ _ _ _ As Ae R).
Defined.

(** ** Exceptions of the statistics, and NaN *)


(** X7: on every input, NaN and infinities included, [compute_statistics]
    either returns statistics whose count is the number of values other than
    [None], or raises [OverflowError], which it does only for two or more
    such values with a deviation whose square overflows; [math.sqrt] is
    never given a negative variance, and nothing else is raised. *)
Theorem compute_statistics_raises (values : list (option float)) :
  (exists st, compute_statistics values = Ret st
     /\ count st = Z.of_nat (List.length (valid_values values)))
  \/ (compute_statistics values = Raise OverflowError
      /\ (2 <= List.length (valid_values values))%nat
      /\ deviation_overflows (valid_values values) = true).
Proof.
  rewrite (compute_statistics_valid values (Some <$> valid_values values))
    by (by rewrite valid_values_Some).
  destruct (valid_values values) as [|v0 rest]; [left; by eexists|].
  rewrite compute_statistics_cons.
  destruct (Nat.eqb (List.length (v0 :: rest)) 1) eqn:L; [left; by eexists|].
  destruct (deviation_overflows (v0 :: rest)); [|left; by eexists].
  right. split; [done|]. split; [|done].
  apply Nat.eqb_neq in L. cbn in *. lia.
Qed.

Lemma sum_from_nan (xs : list float) (acc : float) :
  is_nan acc = true -> is_nan (fold_left PrimFloat.add xs acc) = true.
Proof.
  revert acc. induction xs as [|x xs IH]; intros acc N; cbn; [done|].
  apply IH. rewrite is_nan_spec in *. rewrite FloatAxioms.add_spec.
  by destruct (Prim2SF acc).
Qed.

Lemma sum_nan (xs : list float) (acc : float) :
  Exists (fun x => is_nan x = true) xs ->
  is_nan (fold_left PrimFloat.add xs acc) = true.
Proof.
  intros E. revert acc. induction E as [x xs N|x xs E IH]; intros acc; cbn.
  - apply sum_from_nan. rewrite is_nan_spec in *.
    rewrite FloatAxioms.add_spec. by destruct (Prim2SF acc), (Prim2SF x).
  - apply IH.
Qed.

Lemma div_nan (x y : float) : is_nan x = true -> is_nan (x / y) = true.
Proof.
  rewrite !is_nan_spec, FloatAxioms.div_spec. by destruct (Prim2SF x).
Qed.

Lemma sub_nan (x y : float) : is_nan y = true -> is_nan (x - y) = true.
Proof.
  rewrite !is_nan_spec, FloatAxioms.sub_spec.
  by destruct (Prim2SF x), (Prim2SF y).
Qed.

Lemma mul_nan (x y : float) : is_nan x = true -> is_nan (x * y) = true.
Proof.
  rewrite !is_nan_spec, FloatAxioms.mul_spec. by destruct (Prim2SF x).
Qed.

Lemma sqrt_nan (x : float) :
  is_nan x = true -> is_nan (PrimFloat.sqrt x) = true.
Proof.
  rewrite !is_nan_spec, FloatAxioms.sqrt_spec. by destruct (Prim2SF x).
Qed.

Lemma mean_nan (vs : list float) :
  Exists (fun x => is_nan x = true) vs -> is_nan (mean vs) = true.
Proof. intros E. unfold mean. apply div_nan. by apply sum_nan. Qed.

(** X8: one NaN among the values makes the statistics NaN: on every
    sequence of floats that holds a NaN, [compute_statistics] returns, raises
    nothing, and the average it returns is a NaN, and so is the std_dev when
    there are two or more values. *)
Theorem compute_statistics_nan (vs : list float) :
  Exists (fun x => is_nan x = true) vs ->
  exists st, compute_statistics (Some <$> vs) = Ret st
    /\ num_is_nan (average st) = true
    /\ ((2 <= List.length vs)%nat -> is_nan (std_dev st) = true).
Proof.
  intros E. pose proof (mean_nan vs E) as M.
  destruct vs as [|v0 rest]; [by apply Exists_nil in E|].
  rewrite compute_statistics_cons.
  destruct (Nat.eqb (List.length (v0 :: rest)) 1) eqn:L.
  { eexists. split; [done|]. cbn [average std_dev].
    split; [by rewrite <- is_nan_value|].
    apply Nat.eqb_eq in L. lia. }
  assert (deviation_overflows (v0 :: rest) = false) as ->.
  { unfold deviation_overflows. apply not_true_is_false.
    intros (x & _ & O)%existsb_exists. unfold sq_overflows in O.
    apply andb_prop in O as [O _]. unfold is_finite in O.
    by rewrite (sub_nan x _ M) in O. }
  eexists. split; [done|]. cbn [average std_dev].
  split; [by rewrite <- is_nan_value|]. intros _.
  unfold population_std_dev. apply sqrt_nan, div_nan, sum_nan.
  unfold squared_deviations. cbn [fmap list_fmap]. left.
  apply mul_nan. by apply sub_nan.
Qed.

Lemma compute_statistics_nan_witness :
  Exists (fun x => is_nan x = true) [1%float; nan]
  /\ exists st, compute_statistics (Some <$> [1%float; nan]) = Ret st
       /\ num_is_nan (average st) = true
       /\ ((2 <= 2)%nat -> is_nan (std_dev st) = true).
Proof.
  assert (Exists (fun x => is_nan x = true) [1%float; nan]) as E
    by (right; left; reflexivity).
  split; [exact E|]. exact (compute_statistics_nan _ E).
Defined.

(** ** Statistics of the groups of a run *)

Lemma compute_stats_cons (kv : GroupKey * list (option float))
    (aggs : list (GroupKey * list (option float))) :
  compute_stats (kv :: aggs) =
    (st <~ compute_statistics kv.2;
     stats <~ compute_stats aggs;
     Ret ((kv.1, st) :: stats)).
Proof.
  unfold compute_stats. cbn. by destruct (compute_statistics kv.2).
Qed.

Lemma compute_stats_Forall2 (aggs : list (GroupKey * list (option float)))
    (stats : list (GroupKey * Statistics)) :
  compute_stats aggs = Ret stats ->
  Forall2 (fun kv ks => ks.1 = kv.1 /\ compute_statistics kv.2 = Ret ks.2)
    aggs stats.
Proof.
  revert stats. induction aggs as [|kv aggs IH]; intros stats.
  - intros [= <-]. constructor.
  - rewrite compute_stats_cons.
    destruct (compute_statistics kv.2) as [st|] eqn:C; cbn; [|done].
    destruct (compute_stats aggs) as [stats'|]; cbn; [|done].
    intros [= <-]. constructor; [done|]. by apply IH.
Qed.

Lemma compute_stats_keys (aggs : list (GroupKey * list (option float)))
    (stats : list (GroupKey * Statistics)) :
  compute_stats aggs = Ret stats -> stats.*1 = aggs.*1.
Proof.
  intros C%compute_stats_Forall2.
  induction C as [|kv ks aggs stats [E _] _ IH]; [done|].
  cbn. by rewrite E, IH.
Qed.


(** The statistics of a group of a run are those of its readings, of which
    there is at least one. *)
Lemma group_statistics (strptime : string -> string -> option datetime)
    (float_of_str : string -> option float) (args : Args) (rows : list Row)
    (aggs : list (GroupKey * list (option float)))
    (stats : list (GroupKey * Statistics)) (key : GroupKey)
    (st : Statistics) :
  aggregate strptime float_of_str args rows = Ret aggs ->
  compute_stats aggs = Ret stats ->
  (key, st) ∈ stats ->
  exists v0 rest,
    readings_of strptime float_of_str args key rows = v0 :: rest
    /\ compute_statistics (Some <$> v0 :: rest) = Ret st.
Proof.
  intros A C%compute_stats_Forall2 K.
  assert (Forall (fun kv => kv.2 <> []) aggs) as NE
    by (eapply aggregate_from_nonempty; [|exact A]; constructor).
  apply list_elem_of_lookup in K as [i K].
  destruct (Forall2_lookup_r _ _ _ _ _ C K) as ([k values] & G & E & S).
  cbn in E, S. subst k. apply list_elem_of_lookup_2 in G.
  rewrite Forall_forall in NE. specialize (NE _ G). cbn in NE.
  rewrite (aggregate_values _ _ _ _ _ _ _ A G) in S, NE.
  destruct (readings_of strptime float_of_str args key rows) as [|v0 rest];
    [done|].
  by exists v0, rest.
Qed.


(** X9: when [main] has computed the statistics of the groups of a run,
    they are in the order of the groups, and the count of every group is the
    number of its readings and at least 1, so that its average is a float:
    the all-zero statistics of an empty input are never in a report. *)
Theorem stats_of_groups (strptime : string -> string -> option datetime)
    (float_of_str : string -> option float) (args : Args) (rows : list Row)
    (aggs : list (GroupKey * list (option float)))
    (stats : list (GroupKey * Statistics)) :
  aggregate strptime float_of_str args rows = Ret aggs ->
  compute_stats aggs = Ret stats ->
  stats.*1 = aggs.*1
  /\ forall key st,
       (key, st) ∈ stats ->
       count st =
         Z.of_nat
           (List.length (readings_of strptime float_of_str args key rows))
       /\ 1 <= count st
       /\ exists a, average st = PyFloat a.
Proof.
  intros A C. split; [by apply compute_stats_keys|].
  intros key st K.
  destruct (group_statistics _ _ _ _ _ _ _ _ A C K) as (v0 & rest & -> & S).
  rewrite compute_statistics_cons in S.
  destruct (Nat.eqb (List.length (v0 :: rest)) 1);
    [|destruct (deviation_overflows (v0 :: rest)); [done|]];
    injection S as <-; cbn [count average];
    (split; [done|]; split; [cbn; lia|by eexists]).
Qed.

Lemma stats_of_groups_witness :
  aggregate Builtins.strptime Builtins.float_of_str no_filter fixture_rows
  = Ret fixture_aggregations
  /\ compute_stats fixture_aggregations = Ret fixture_stats
  /\ fixture_stats.*1 = fixture_aggregations.*1.
Proof.
  assert (aggregate Builtins.strptime Builtins.float_of_str no_filter
            fixture_rows = Ret fixture_aggregations) as A
    by (vm_compute; reflexivity).
  assert (compute_stats fixture_aggregations = Ret fixture_stats) as C
    by (vm_compute; reflexivity).
  split; [exact A|]. split; [exact C|].
  exact (proj1 (stats_of_groups _ _ _ _ _ _ A C)).
Defined.

(** ** The top lists: greatest and stable *)

Section StableFacts.

Context {A : Type}.
Variable key : A -> num.

Lemma xnum_cmp_eq (a b : xnum) : xnum_cmp a b = Eq -> a = b.
Proof.
  destruct a, b; cbn; try done. intros ->%Z.compare_eq. done.
Qed.

Lemma key_eq_not_lt (a : num) (x y : A) :
  key_eq key a x -> key_eq key a y -> num_lt (key y) (key x) = false.
Proof.
  unfold key_eq, num_lt, num_cmp.
  destruct (num_value (key x)) as [vx|], (num_value (key y)) as [vy|],
    (num_value a) as [va|]; try done.
  intros [= ->%xnum_cmp_eq] [= ->%xnum_cmp_eq].
  destruct va; cbn; try done. by rewrite Z.compare_refl.
Qed.

Lemma insert_by_filter (a : num) (x : A) (l : list A) :
  filter (key_eq key a) (insert_by key x l) = filter (key_eq key a) (x :: l).
Proof.
  induction l as [|y l IH]; cbn [insert_by]; [done|].
  destruct (num_lt (key y) (key x)) eqn:L; [|done].
  rewrite (filter_cons _ y), IH, !(filter_cons _ x), (filter_cons _ y).
  destruct (decide (key_eq key a y)) as [Y|Y]; [|done].
  destruct (decide (key_eq key a x)) as [X|X]; [|done].
  by rewrite (key_eq_not_lt a x y) in L.
Qed.

Lemma stable_sort_filter (a : num) (l : list A) :
  filter (key_eq key a) (stable_sort key l) = filter (key_eq key a) l.
Proof.
  induction l as [|x l IH]; [done|].
  change (stable_sort key (x :: l)) with (insert_by key x (stable_sort key l)).
  by rewrite insert_by_filter, !(filter_cons _ x), IH.
Qed.

Lemma filter_rev (P : A -> Prop) `{!forall x, Decision (P x)} (l : list A) :
  filter P (rev l) = rev (filter P l).
Proof.
  induction l as [|x l IH]; [done|]. cbn [rev].
  rewrite filter_app, IH, (filter_cons _ x).
  destruct (decide (P x)).
  - by rewrite filter_cons_True, filter_nil.
  - rewrite filter_cons_False, filter_nil by done. by rewrite app_nil_r.
Qed.

Lemma sorted_reverse_filter (a : num) (l : list A) :
  filter (key_eq key a) (sorted_reverse key l) = filter (key_eq key a) l.
Proof.
  unfold sorted_reverse.
  by rewrite filter_rev, stable_sort_filter, filter_rev, rev_involutive.
Qed.

Lemma top_stable (a : num) (l : list A) :
  filter (key_eq key a) (take 10 (sorted_reverse key l))
    `prefix_of` filter (key_eq key a) l.
Proof.
  rewrite <- (sorted_reverse_filter a l).
  exists (filter (key_eq key a) (drop 10 (sorted_reverse key l))).
  by rewrite <- filter_app, take_drop.
Qed.

Lemma top_greatest (l : list A) :
  Forall (ordered key) l ->
  forall x y,
    x ∈ take 10 (sorted_reverse key l) ->
    y ∈ drop 10 (sorted_reverse key l) ->
    num_ge (key x) (key y) = true.
Proof.
  intros O x y X Y.
  pose proof (sorted_reverse_sorted key l O) as S.
  rewrite <- (take_drop 10 (sorted_reverse key l)) in S.
  exact (StronglySorted_app_1_elem_of _ _ _ _ _ S X Y).
Qed.

End StableFacts.

(** X10: each top list holds the greatest: when no average is a NaN, every
    group that [top_by_avg] leaves out has an average that is at most the
    average of every group in the list; and so for [top_by_stddev] and the
    std_devs. *)
Theorem top_lists_greatest (stats : list (GroupKey * Statistics)) :
  (Forall (fun x => num_is_nan (average x.2) = false) stats ->
   exists rest,
     top_by_avg stats ++ rest ≡ₚ stats
     /\ forall x y, x ∈ top_by_avg stats -> y ∈ rest ->
          num_ge (average x.2) (average y.2) = true)
  /\ (Forall (fun x => is_nan (std_dev x.2) = false) stats ->
      exists rest,
        top_by_stddev stats ++ rest ≡ₚ stats
        /\ forall x y, x ∈ top_by_stddev stats -> y ∈ rest ->
             (std_dev y.2 <=? std_dev x.2)%float = true).
Proof.
  unfold top_by_avg, top_by_stddev. split; intros F.
  - exists (drop 10 (sorted_reverse (fun x => average x.2) stats)).
    split; [by rewrite take_drop, sorted_reverse_Permutation|].
    by apply (top_greatest (fun x => average x.2)).
  - exists (drop 10 (sorted_reverse (fun x => PyFloat (std_dev x.2)) stats)).
    split; [by rewrite take_drop, sorted_reverse_Permutation|].
    intros x y X Y. rewrite leb_value.
    apply (top_greatest (fun x => PyFloat (std_dev x.2)) stats); [|done..].
    eapply Forall_impl; [exact F|]. intros z Z. cbn in Z.
    unfold ordered. by rewrite <- is_nan_value.
Qed.

(** X11: the top lists keep ties in the order of the groups: when no
    average is a NaN, the groups of [top_by_avg] whose average is equal to a
    given number are, in the same order, the first of the groups with that
    average; and so for [top_by_stddev] and the std_devs. *)
Theorem top_lists_stable (stats : list (GroupKey * Statistics)) (a : num) :
  (Forall (fun x => num_is_nan (average x.2) = false) stats ->
   filter (key_eq (fun x => average x.2) a) (top_by_avg stats)
     `prefix_of` filter (key_eq (fun x => average x.2) a) stats)
  /\ (Forall (fun x => is_nan (std_dev x.2) = false) stats ->
      filter (key_eq (fun x => PyFloat (std_dev x.2)) a)
        (top_by_stddev stats)
        `prefix_of` filter (key_eq (fun x => PyFloat (std_dev x.2)) a) stats).
Proof. split; intros _; apply top_stable. Qed.

(** ** Whitespace around a value and a timestamp *)

Lemma append_cons (c : ascii) (l s : string) :
  String c l +:+ s = String c (l +:+ s).
Proof. reflexivity. Qed.

Lemma append_nil (s : string) : "" +:+ s = s.
Proof. reflexivity. Qed.

Lemma lstrip_blank (l s : string) :
  blank l = true -> lstrip (l +:+ s) = lstrip s.
Proof.
  induction l as [|c l IH]; [done|]. rewrite append_cons. cbn [blank lstrip].
  intros [C B]%andb_prop. rewrite C. by apply IH.
Qed.

Lemma rstrip_blank (r : string) : blank r = true -> rstrip r = "".
Proof.
  induction r as [|c r IH]; cbn [blank rstrip]; [done|].
  intros [C B]%andb_prop. by rewrite (IH B), C.
Qed.

Lemma rstrip_app_blank (s r : string) :
  blank r = true -> rstrip (s +:+ r) = rstrip s.
Proof.
  intros B. induction s as [|c s IH].
  - by rewrite append_nil, rstrip_blank.
  - rewrite append_cons. cbn [rstrip]. by rewrite IH.
Qed.

Lemma lstrip_blank_all (s : string) : blank s = true -> lstrip s = "".
Proof.
  induction s as [|c s IH]; cbn [blank lstrip]; [done|].
  intros [C B]%andb_prop. rewrite C. by apply IH.
Qed.

Lemma strip_app_blank (s r : string) :
  blank r = true -> strip (s +:+ r) = strip s.
Proof.
  intros B. unfold strip. induction s as [|c s IH].
  - by rewrite append_nil, (lstrip_blank_all r B).
  - rewrite append_cons. cbn [lstrip]. destruct (isspace c); [exact IH|].
    by apply (rstrip_app_blank (String c s)).
Qed.

Lemma strip_padded (l s r : string) :
  blank l = true -> blank r = true -> strip (l +:+ s +:+ r) = strip s.
Proof.
  intros L R. unfold strip. rewrite (lstrip_blank l _ L).
  by apply strip_app_blank.
Qed.

(** X12: whitespace around a value text or around the timestamp of a
    record changes nothing: [convert_to_float] returns the same for the
    text with whitespace before and after it, and [should_include] the same
    for the record with whitespace around its time. *)
Theorem surrounding_whitespace_ignored
    (strptime : string -> string -> option datetime)
    (float_of_str : string -> option float) (l r : string) :
  blank l = true -> blank r = true ->
  (forall s,
     convert_to_float float_of_str (Some (l +:+ s +:+ r))
     = convert_to_float float_of_str (Some s))
  /\ (forall (rd : Reading.t) (args : Args),
        should_include strptime
          (Reading.row
             (Reading.make (l +:+ Reading.time rd +:+ r) (Reading.site rd)
                (Reading.device rd) (Reading.metric rd) (Reading.unit rd)
                (Reading.value rd)))
          args
        = should_include strptime (Reading.row rd) args).
Proof.
  intros L R. split.
  - intros s. unfold convert_to_float. by rewrite strip_padded.
  - intros rd args. rewrite !should_include_reading. cbn.
    unfold in_range. by rewrite strip_padded.
Qed.

Lemma surrounding_whitespace_ignored_witness :
  blank " " = true /\ blank "  " = true
  /\ convert_to_float Builtins.float_of_str (Some (" " +:+ "20.0" +:+ "  "))
     = convert_to_float Builtins.float_of_str (Some "20.0").
Proof.
  assert (blank " " = true) as L by reflexivity.
  assert (blank "  " = true) as R by reflexivity.
  split; [exact L|]. split; [exact R|].
  exact (proj1 (surrounding_whitespace_ignored Builtins.strptime
                  Builtins.float_of_str " " "  " L R) "20.0").
Defined.

(** ** The table of the groups *)

Lemma length_append (a b : string) :
  String.length (a +:+ b) = (String.length a + String.length b)%nat.
Proof.
  induction a as [|c a IH]; [done|]. rewrite append_cons. cbn. by rewrite IH.
Qed.

Lemma append_assoc (a b c : string) : (a +:+ b) +:+ c = a +:+ b +:+ c.
Proof.
  induction a as [|x a IH]; [done|]. rewrite !append_cons. by rewrite IH.
Qed.

Lemma length_repeat_char (n : nat) (c : ascii) :
  String.length (repeat_char n c) = n.
Proof. induction n as [|n IH]; cbn; [done|]. by rewrite IH. Qed.

Lemma length_ljust (w : nat) (s : string) :
  String.length (ljust w s) = Nat.max w (String.length s).
Proof. unfold ljust. rewrite length_append, length_repeat_char. lia. Qed.

Lemma length_rjust (w : nat) (s : string) :
  String.length (rjust w s) = Nat.max w (String.length s).
Proof. unfold rjust. rewrite length_append, length_repeat_char. lia. Qed.

Lemma ascii_compare_trans (a b c : ascii) :
  (a ?= b)%char = Lt -> (b ?= c)%char = Lt -> (a ?= c)%char = Lt.
Proof. unfold Ascii.compare. rewrite !N.compare_lt_iff. lia. Qed.

Lemma string_compare_trans (a b c : string) :
  (a ?= b)%string = Lt -> (b ?= c)%string = Lt -> (a ?= c)%string = Lt.
Proof.
  revert b c. induction a as [|x a IH]; intros [|y b] [|z c]; cbn; try done.
  destruct (x ?= y)%char eqn:XY; [|intros _|done].
  - apply Ascii.compare_eq_iff in XY as ->.
    destruct (y ?= z)%char; [apply IH|done..].
  - destruct (y ?= z)%char eqn:YZ; [|intros _|done].
    + apply Ascii.compare_eq_iff in YZ as <-. by rewrite XY.
    + by rewrite (ascii_compare_trans _ _ _ XY YZ).
Qed.

Lemma string_ltb_trans (a b c : string) :
  String.ltb a b = true -> String.ltb b c = true -> String.ltb a c = true.
Proof.
  unfold String.ltb.
  destruct (a ?= b)%string eqn:AB; try done.
  destruct (b ?= c)%string eqn:BC; try done.
  by rewrite (string_compare_trans _ _ _ AB BC).
Qed.

Lemma string_ltb_total (a b : string) :
  a <> b -> String.ltb a b = false -> String.ltb b a = true.
Proof.
  unfold String.ltb. rewrite (String.compare_antisym a b).
  destruct (b ?= a)%string eqn:BA; cbn; try done.
  apply String.compare_eq_iff in BA. congruence.
Qed.

Lemma string_ltb_asym (a b : string) :
  String.ltb a b = true -> String.ltb b a = false.
Proof.
  unfold String.ltb. rewrite (String.compare_antisym b a).
  by destruct (a ?= b)%string.
Qed.

Lemma key_lt_text (d1 s1 m1 d2 s2 m2 : string) :
  key_lt (Some d1, Some s1, Some m1) (Some d2, Some s2, Some m2) =
    Ret (if decide (d1 = d2) then
           if decide (s1 = s2) then
             if decide (m1 = m2) then false else String.ltb m1 m2
           else String.ltb s1 s2
         else String.ltb d1 d2).
Proof.
  unfold key_lt.
  destruct (decide (d1 = d2)) as [->|D].
  - rewrite decide_True by done.
    destruct (decide (s1 = s2)) as [->|S].
    + rewrite decide_True by done.
      destruct (decide (m1 = m2)) as [->|M].
      * by rewrite decide_True.
      * rewrite decide_False by congruence. done.
    + rewrite decide_False by congruence. done.
  - rewrite decide_False by congruence. done.
Qed.

Lemma text_key_inv (k : GroupKey) :
  text_key k -> exists d s m, k = (Some d, Some s, Some m).
Proof.
  destruct k as [[d s] m]. intros ([d' D] & [s' S] & [m' M]). cbn in *.
  subst. by eexists _, _, _.
Qed.

Lemma key_lt_returns (a b : GroupKey) :
  text_key a -> text_key b -> exists c, key_lt a b = Ret c.
Proof.
  intros (d1 & s1 & m1 & ->)%text_key_inv (d2 & s2 & m2 & ->)%text_key_inv.
  rewrite key_lt_text. by eexists.
Qed.

Lemma key_lt_trans (a b c : GroupKey) :
  text_key a -> text_key b -> text_key c ->
  key_lt a b = Ret true -> key_lt b c = Ret true -> key_lt a c = Ret true.
Proof.
  intros (d1 & s1 & m1 & ->)%text_key_inv (d2 & s2 & m2 & ->)%text_key_inv
    (d3 & s3 & m3 & ->)%text_key_inv.
  rewrite !key_lt_text. intros [= AB] [= BC]. f_equal.
  destruct (decide (d1 = d2)) as [->|D12].
  - destruct (decide (d2 = d3)) as [->|D23]; [|done].
    destruct (decide (s1 = s2)) as [->|S12].
    + destruct (decide (s2 = s3)) as [->|S23]; [|done].
      destruct (decide (m1 = m2)) as [->|M12]; [done|].
      destruct (decide (m2 = m3)) as [->|M23]; [done|].
      destruct (decide (m1 = m3)) as [->|M13].
      * by rewrite (string_ltb_asym _ _ AB) in BC.
      * by eapply string_ltb_trans.
    + destruct (decide (s2 = s3)) as [->|S23]; [by rewrite decide_False|].
      destruct (decide (s1 = s3)) as [->|S13].
      * by rewrite (string_ltb_asym _ _ AB) in BC.
      * by eapply string_ltb_trans.
  - destruct (decide (d2 = d3)) as [->|D23]; [by rewrite decide_False|].
    destruct (decide (d1 = d3)) as [->|D13].
    + by rewrite (string_ltb_asym _ _ AB) in BC.
    + by eapply string_ltb_trans.
Qed.

Lemma key_lt_total (a b : GroupKey) :
  text_key a -> text_key b -> a <> b ->
  key_lt a b = Ret false -> key_lt b a = Ret true.
Proof.
  intros (d1 & s1 & m1 & ->)%text_key_inv (d2 & s2 & m2 & ->)%text_key_inv N.
  rewrite !key_lt_text. intros [= AB]. f_equal.
  destruct (decide (d1 = d2)) as [->|D].
  - rewrite decide_True by done.
    destruct (decide (s1 = s2)) as [->|S].
    + rewrite decide_True by done.
      destruct (decide (m1 = m2)) as [->|M]; [done|].
      rewrite decide_False by congruence. by apply string_ltb_total.
    + rewrite decide_False by congruence. by apply string_ltb_total.
  - rewrite decide_False by congruence. by apply string_ltb_total.
Qed.

Lemma key_lt_raises (a b : GroupKey) (e : exn) :
  key_lt a b = Raise e -> e = TypeError.
Proof.
  destruct a as [[d1 s1] m1], b as [[d2 s2] m2]. unfold key_lt, text_lt.
  repeat case_decide; repeat case_match; congruence.
Qed.

Section Items.

Implicit Types (x y : GroupKey * Statistics).
Implicit Types (l : list (GroupKey * Statistics)).

Lemma insert_item_sorted x l :
  Forall (fun y => text_key y.1) (x :: l) -> x.1 ∉ l.*1 ->
  StronglySorted key_before l ->
  exists r, insert_item x l = Ret r /\ r ≡ₚ x :: l
            /\ StronglySorted key_before r.
Proof.
  intros [Tx Tl]%Forall_cons N S. induction S as [|y l S IH F]; cbn.
  - eexists. split; [done|]. split; [done|]. by repeat constructor.
  - apply Forall_cons in Tl as [Ty Tl].
    destruct (key_lt_returns y.1 x.1 Ty Tx) as [c C]. rewrite C. cbn.
    destruct c.
    + destruct (IH Tl) as (r & -> & P & Sr).
      { intros ?. apply N. cbn. by right. }
      cbn. eexists. split; [done|]. split.
      * rewrite P. apply Permutation_swap.
      * constructor; [done|]. rewrite P. by constructor.
    + eexists. split; [done|]. split; [done|].
      assert (key_before x y) as XY.
      { apply key_lt_total; [done..| |done]. intros E. apply N. cbn.
        rewrite E. by left. }
      constructor; [by constructor|]. constructor; [done|].
      rewrite Forall_forall in F. rewrite Forall_forall in Tl.
      rewrite Forall_forall. intros z Z.
      eapply key_lt_trans; [done|exact Ty|by apply Tl|exact XY|by apply F].
Qed.

Lemma sorted_items_sorted l :
  Forall (fun y => text_key y.1) l -> NoDup l.*1 ->
  exists r, sorted_items l = Ret r /\ r ≡ₚ l /\ StronglySorted key_before r.
Proof.
  induction l as [|x l IH]; cbn.
  - intros _ _. eexists. split; [done|]. split; [done|]. constructor.
  - intros [Tx Tl]%Forall_cons [N1 N2]%NoDup_cons.
    destruct (IH Tl N2) as (r & -> & P & S). cbn.
    destruct (insert_item_sorted x r) as (r' & -> & P' & S'); [| |done|].
    + constructor; [done|]. by rewrite P.
    + by rewrite P.
    + eexists. split; [done|]. split; [|done]. by rewrite P', P.
Qed.

Lemma insert_item_outcome x l :
  (exists r, insert_item x l = Ret r /\ r ≡ₚ x :: l)
  \/ insert_item x l = Raise TypeError.
Proof.
  induction l as [|y l IH]; cbn; [left; by eexists|].
  destruct (key_lt y.1 x.1) as [[|]|e] eqn:K; cbn.
  - destruct IH as [(r & -> & P)| ->]; [|by right]. left. cbn.
    eexists. split; [done|]. rewrite P. apply Permutation_swap.
  - left. by eexists.
  - right. by rewrite (key_lt_raises _ _ _ K).
Qed.

Lemma sorted_items_outcome l :
  (exists r, sorted_items l = Ret r /\ r ≡ₚ l)
  \/ sorted_items l = Raise TypeError.
Proof.
  induction l as [|x l IH]; cbn; [left; by eexists|].
  destruct IH as [(r & -> & P)| ->]; [|by right]. cbn.
  destruct (insert_item_outcome x r) as [(r' & -> & P')| ->]; [|by right].
  left. eexists. split; [done|]. by rewrite P', P.
Qed.

End Items.


Lemma mapM_returns {A B : Type} (f : A -> result B) (l : list A) :
  Forall (fun a => exists b, f a = Ret b) l ->
  exists r, mapM f l = Ret r /\ List.length r = List.length l.
Proof.
  induction 1 as [|a l [b F] _ (r & IH & L)]; cbn; [by eexists|].
  rewrite F, IH. cbn. eexists. split; [done|]. cbn. by rewrite L.
Qed.

Lemma mapM_raises {A B : Type} (f : A -> result B) (l : list A) (e : exn) :
  Forall (fun a => (exists b, f a = Ret b) \/ f a = Raise e) l ->
  Exists (fun a => f a = Raise e) l ->
  mapM f l = Raise e.
Proof.
  intros F E. induction E as [a l R|a l E IH]; cbn.
  - by rewrite R.
  - apply Forall_cons in F as [[[b ->]| ->] F]; [|done]. cbn.
    by rewrite (IH F).
Qed.

Section Printing.

Variable fixed2 : float -> string.

Lemma key_columns_text (d s m : string) :
  key_columns (Some d, Some s, Some m) =
    Ret (ljust 20 d +:+ " " +:+ ljust 10 s +:+ " " +:+ ljust 15 m).
Proof. reflexivity. Qed.

Lemma key_columns_returns (key : GroupKey) :
  text_key key -> exists k, key_columns key = Ret k.
Proof.
  intros (d & s & m & ->)%text_key_inv. rewrite key_columns_text. by eexists.
Qed.

Lemma key_columns_raises (key : GroupKey) :
  ~ text_key key -> key_columns key = Raise TypeError.
Proof.
  destruct key as [[[d|] [s|]] [m|]]; try done.
  intros []. unfold text_key. cbn. eauto.
Qed.

Lemma aggregation_row_returns (x : GroupKey * Statistics) :
  text_key x.1 -> float_average x ->
  exists row, aggregation_row fixed2 x = Ret row.
Proof.
  intros [k K]%key_columns_returns [a A]. unfold aggregation_row.
  rewrite K, A. cbn. by eexists.
Qed.

Lemma aggregation_row_raises (x : GroupKey * Statistics) :
  ~ text_key x.1 -> aggregation_row fixed2 x = Raise TypeError.
Proof.
  intros K%key_columns_raises. unfold aggregation_row. by rewrite K.
Qed.


Lemma print_aggregation_results_returns
    (stats : list (GroupKey * Statistics)) :
  NoDup stats.*1 ->
  Forall (fun x => text_key x.1) stats -> Forall float_average stats ->
  exists items rows,
    items ≡ₚ stats /\ StronglySorted key_before items
    /\ mapM (aggregation_row fixed2) items = Ret rows
    /\ print_aggregation_results fixed2 stats =
         Ret (("Device               Site       Metric          "
               +:+ "       Avg        Min        Max    Count     StdDev")
              :: repeat_char 100 "-" :: rows).
Proof.
  intros N T A. unfold print_aggregation_results.
  destruct (sorted_items_sorted stats T N) as (items & -> & P & S).
  cbn [bind].
  destruct (mapM_returns (aggregation_row fixed2) items) as (rows & R & L).
  { rewrite P. rewrite Forall_forall in T. rewrite Forall_forall in A.
    rewrite Forall_forall. intros x X. apply aggregation_row_returns; auto. }
  rewrite R. cbn [bind]. exists items, rows.
  split; [done|]. split; [done|]. split; [done|]. reflexivity.
Qed.

Lemma print_aggregation_results_None (stats : list (GroupKey * Statistics)) :
  Forall float_average stats ->
  ~ Forall (fun x => text_key x.1) stats ->
  print_aggregation_results fixed2 stats = Raise TypeError.
Proof.
  intros A T. unfold print_aggregation_results.
  destruct (sorted_items_outcome stats) as [(items & -> & P)| ->]; [|done].
  cbn [bind]. rewrite mapM_raises with (e := TypeError); [done| |].
  - rewrite P. eapply Forall_impl; [exact A|]. intros x X. cbn.
    destruct (decide (text_key x.1)) as [K|K].
    + left. by apply aggregation_row_returns.
    + right. by apply aggregation_row_raises.
  - rewrite P. apply not_Forall_Exists in T; [|intros x; apply _].
    eapply Exists_impl; [exact T|]. intros x X. cbn in X.
    by apply aggregation_row_raises.
Qed.

End Printing.

(** X13: for the statistics of the groups of a dict (no key twice, every
    average a float), [print_aggregation_results] prints the header, the
    rule of 100 dashes and one row for each group, the rows in ascending
    order of the keys (device, then site, then metric, each compared as
    text), when every key holds text; when some column of a key is [None]
    it raises [TypeError]. *)
Theorem print_aggregation_results_sorted (fixed2 : float -> string)
    (stats : list (GroupKey * Statistics)) :
  NoDup stats.*1 ->
  Forall float_average stats ->
  (Forall (fun x => text_key x.1) stats ->
   exists items rows,
     items ≡ₚ stats /\ StronglySorted key_before items
     /\ mapM (aggregation_row fixed2) items = Ret rows
     /\ print_aggregation_results fixed2 stats =
          Ret (("Device               Site       Metric          "
                +:+ "       Avg        Min        Max    Count     StdDev")
               :: repeat_char 100 "-" :: rows))
  /\ (~ Forall (fun x => text_key x.1) stats ->
      print_aggregation_results fixed2 stats = Raise TypeError).
Proof.
  intros N A. split.
  - intros T. by apply print_aggregation_results_returns.
  - by apply print_aggregation_results_None.
Qed.

Lemma print_aggregation_results_sorted_witness :
  NoDup fixture_stats.*1
  /\ Forall float_average fixture_stats
  /\ exists items rows,
       items ≡ₚ fixture_stats /\ StronglySorted key_before items
       /\ mapM (aggregation_row Builtins.fixed2) items = Ret rows
       /\ print_aggregation_results Builtins.fixed2 fixture_stats =
            Ret (("Device               Site       Metric          "
                  +:+ "       Avg        Min        Max    Count     StdDev")
                 :: repeat_char 100 "-" :: rows).
Proof.
  assert (NoDup fixture_stats.*1) as N
    by (apply (bool_decide_unpack _); vm_compute; exact I).
  assert (Forall float_average fixture_stats) as A
    by (repeat constructor; by eexists).
  assert (Forall (fun x : GroupKey * Statistics => text_key x.1)
            fixture_stats) as T
    by (repeat constructor; cbn; eauto).
  split; [exact N|]. split; [exact A|].
  exact (proj1 (print_aggregation_results_sorted Builtins.fixed2
                  fixture_stats N A) T).
Defined.

(** X14: a row of the table is never cut: for a key of three texts it
    starts with the device, it is at least 100 characters wide, and it is as
    wide as the header and the rule, 100 characters, exactly when every
    field fits its column (20, 10 and 15 characters for device, site and
    metric, 8 for the count, 10 for each number). *)
Theorem aggregation_row_width (fixed2 : float -> string) (d s m : string)
    (a mn mx sd : float) (n : Z) :
  exists row,
    aggregation_row fixed2
      ((Some d, Some s, Some m),
       {| average := PyFloat a; min_value := mn; max_value := mx;
          count := n; std_dev := sd |}) = Ret row
    /\ (exists rest, row = d +:+ rest)
    /\ (100 <= String.length row)%nat
    /\ (String.length row = 100%nat <->
        (String.length d <= 20 /\ String.length s <= 10
         /\ String.length m <= 15 /\ String.length (fixed2 a) <= 10
         /\ String.length (fixed2 mn) <= 10
         /\ String.length (fixed2 mx) <= 10
         /\ String.length (decimal n) <= 8
         /\ String.length (fixed2 sd) <= 10)%nat)
    /\ String.length (repeat_char 100 "-") = 100%nat.
Proof.
  unfold aggregation_row. cbn [fst snd]. rewrite key_columns_text.
  cbn [bind format_fixed average min_value max_value count std_dev].
  eexists. split; [reflexivity|]. split.
  { unfold ljust at 1. rewrite !append_assoc. by eexists. }
  rewrite !length_append, !length_ljust, !length_rjust, length_repeat_char.
  cbn [String.length]. lia.
Qed.

(** ** The run as a whole *)

Section RunOnRecords.

Variable strptime : string -> string -> option datetime.
Variable float_of_str : string -> option float.
Variable fixed2 : float -> string.




End RunOnRecords.


Example main_fixture :
  main Builtins.strptime Builtins.float_of_str Builtins.fixed2 no_options
    fixture_rows
  = Report
      [nl; "AGGREGATION RESULTS"; repeat_char 65 "-";
       nl +:+ "Total device+site+metric combinations: 2" +:+ nl;
       "Device               Site       Metric          "
       +:+ "       Avg        Min        Max    Count     StdDev";
       repeat_char 100 "-";
       "dev_1                site_1     temp            "
       +:+ "     20.00      10.00      30.00        3       8.16";
       "dev_2                site_2     humidity        "
       +:+ "     52.50      50.00      55.00        2       2.50";
       nl; "TOP 10 BY AVERAGE VALUE"; repeat_char 65 "-";
       "Rank   Device               Site       Metric             Average";
       repeat_char 65 "-";
       "1      dev_2                site_2     humidity             52.50";
       "2      dev_1                site_1     temp                 20.00";
       nl; "TOP 10 BY STANDARD DEVIATION (HIGHEST VARIABILITY)";
       repeat_char 65 "-";
       "Rank   Device               Site       Metric              StdDev";
       repeat_char 65 "-";
       "1      dev_1                site_1     temp                  8.16";
       "2      dev_2                site_2     humidity              2.50"].
Proof. vm_compute. reflexivity. Qed.

Example main_bad_date :
  main Builtins.strptime Builtins.float_of_str Builtins.fixed2
    (Namespace.make "mini.csv" None None None (Some "01/01/2025") None)
    fixture_rows
  = Exit2 "Invalid start-date format: Unable to parse date string: 01/01/2025".
Proof. vm_compute. reflexivity. Qed.

Example main_overflow :
  main Builtins.strptime Builtins.float_of_str Builtins.fixed2 no_options
    (Reading.row <$>
       [Reading.make "2025-01-01 00:00:00" "site_1" "dev_1" "temp" "Cel"
          "1e200";
        Reading.make "2025-01-01 00:05:00" "site_1" "dev_1" "temp" "Cel"
          "0"])
  = Uncaught OverflowError.
Proof. vm_compute. reflexivity. Qed.

Example main_short_row :
  main Builtins.strptime Builtins.float_of_str Builtins.fixed2 from_date
    [<["time" := None]> (Reading.row fixture_row)]
  = ReadError AttributeError.
Proof. vm_compute. reflexivity. Qed.
